(** * mongo-tools: restore metadata and write-error filtering

    A shallow embedding of [mongorestore/metadata.go] and of the error
    helpers of package [db] ([FilterError], [CanIgnoreError],
    [GetTimeseriesCollNameFromBucket]), with the properties the
    specification states about them.

    Go strings are byte strings: [string] with [String.length] as [len].
    Go's [int] and [int64] are [Z].  A function returning [error] is a
    computation in the monad [M] below: [inl e] is a returned non-nil
    error, [inr] the nil-error result. *)

From Stdlib Require Import ZArith String Ascii List Lia.
From stdpp Require Import base option list gmap strings pretty.

Local Open Scope string_scope.
Local Open Scope Z_scope.

(** ** Errors *)

(** Go's [error] interface as the code observes it: the text of
    [err.Error()], the result of [errors.As(err, &mongo.ServerError)]
    (the [HasErrorCode] method of the server error found, if any), and the
    result of the type assertion [err.(mongo.BulkWriteException)] (the
    [Message] of each of its [WriteErrors]). *)
Record error := {
  Error : string;
  AsServerError : option (Z -> bool);
  AsBulkWriteException : option (list string)
}.

(** [errors.New] and [fmt.Errorf] without [%w]: a plain error. *)
Definition errors_New (msg : string) : error :=
  {| Error := msg; AsServerError := None; AsBulkWriteException := None |}.

(** ** Logging *)

Inductive Level := Always | Info | DebugLow | DebugHigh.

Definition logline : Type := Level * string.

(** ** Package db: ignorable errors *)
Module db.

Definition ErrDuplicateKeyCode : Z := 11000.
Definition ErrFailedDocumentValidation : Z := 121.
Definition ErrUnacknowledgedWrite : string := "unacknowledged write".
Definition ErrCannotInsertTimeseriesBucketsWithMixedSchema : Z := 408.

Definition ignorableWriteErrorCodes : gset Z :=
  {[ ErrDuplicateKeyCode; ErrFailedDocumentValidation ]}.

Definition continueThroughErrorFormat (v : string) : string :=
  "continuing through error: " +:+ v.

(** [CanIgnoreError]: a nil error can be ignored; otherwise the error must
    be a server error having one of the ignorable codes. *)
Definition CanIgnoreError (err : option error) : bool :=
  match err with
  | None => true
  | Some e =>
      match AsServerError e with
      | Some HasErrorCode => existsb HasErrorCode (elements ignorableWriteErrorCodes)
      | None => false
      end
  end.

(** [FilterError]: the returned error ([None] is nil) and the lines logged. *)
Definition FilterError (stopOnError : bool) (err : option error)
  : option error * list logline :=
  match err with
  | None => (None, [])
  | Some e =>
      if String.eqb (Error e) ErrUnacknowledgedWrite then (None, [])
      else if negb stopOnError && CanIgnoreError err then
        match AsBulkWriteException e with
        | Some WriteErrors =>
            (None, map (fun m => (Always, continueThroughErrorFormat m)) WriteErrors)
        | None => (None, [(Always, continueThroughErrorFormat (Error e))])
        end
      else (err, [])
  end.

Definition TimeseriesBucketNeedsMixedSchema (err : option error) : bool :=
  match err with
  | Some e =>
      match AsServerError e with
      | Some HasErrorCode =>
          HasErrorCode ErrCannotInsertTimeseriesBucketsWithMixedSchema
      | None => false
      end
  | None => false
  end.

(** [strings.TrimPrefix]: [s] without the leading [prefix], or [s] itself
    when it does not start with [prefix]. *)
Fixpoint CutPrefix (s prefix : string) {struct prefix} : option string :=
  match prefix with
  | EmptyString => Some s
  | String p prefix' =>
      match s with
      | EmptyString => None
      | String c s' => if Ascii.eqb c p then CutPrefix s' prefix' else None
      end
  end.

Definition TrimPrefix (s prefix : string) : string :=
  match CutPrefix s prefix with
  | Some rest => rest
  | None => s
  end.

(** [GetTimeseriesCollNameFromBucket]: the Go pair (name, error). *)
Definition GetTimeseriesCollNameFromBucket (bucketCollName : string)
  : string * option error :=
  let collName := TrimPrefix bucketCollName "system.buckets." in
  if String.eqb collName bucketCollName || String.eqb collName ""
  then ("", Some (errors_New ("invalid timeseries bucket name: " +:+ bucketCollName)))
  else (collName, None).

(** Modelled from the spec: [db.Version] and its comparisons [LT] and
    [GTE] (common/db, not among the sources).  The spec orders server
    versions as usual ("servers >= 4.1.9", "servers < 4.2"): major, then
    minor, then patch. *)
Definition Version : Type := Z * Z * Z.

Definition Cmp (v1 v2 : Version) : comparison :=
  let '(a1, b1, c1) := v1 in
  let '(a2, b2, c2) := v2 in
  match a1 ?= a2 with
  | Eq => match b1 ?= b2 with
          | Eq => c1 ?= c2
          | c => c
          end
  | c => c
  end.

Definition LT (v1 v2 : Version) : bool :=
  match Cmp v1 v2 with Lt => true | _ => false end.

Definition GTE (v1 v2 : Version) : bool :=
  match Cmp v1 v2 with Lt => false | _ => true end.

End db.

(** ** BSON values and documents *)

(** The dynamic values ([interface{}]) found in decoded documents, as far
    as the code distinguishes them; [VOther] is any other value, carried
    with its Go type name ([%T]) and its default rendering ([%v]). *)
Inductive value :=
| VNil
| VBool (b : bool)
| VInt (n : Z)
| VInt32 (n : Z)
| VInt64 (n : Z)
| VString (s : string)
| VOther (type_name rendering : string).

(** [fmt]'s [%v]. *)
Definition Sprint (v : value) : string :=
  match v with
  | VNil => "<nil>"
  | VBool true => "true"
  | VBool false => "false"
  | VInt n | VInt32 n | VInt64 n => pretty n
  | VString s => s
  | VOther _ r => r
  end.

(** [fmt]'s [%T]. *)
Definition TypeOf (v : value) : string :=
  match v with
  | VNil => "<nil>"
  | VBool _ => "bool"
  | VInt _ => "int"
  | VInt32 _ => "int32"
  | VInt64 _ => "int64"
  | VString _ => "string"
  | VOther t _ => t
  end.

(** [v == false] on an interface value. *)
Definition is_false (v : value) : bool :=
  match v with
  | VBool false => true
  | _ => false
  end.

(** [bson.E] and [bson.D]: an ordered document. *)
Abbreviation E := (string * value)%type (only parsing).
Abbreviation D := (list (string * value)) (only parsing).

(** [bson.M], a Go map: the nil map, or an allocated map with its
    entries.  Indexing a nil map finds nothing and deleting from it does
    nothing, but assigning to it panics. *)
Inductive bsonM :=
| NilMap
| Map (entries : gmap string value).

#[global] Instance bsonM_lookup : Lookup string value bsonM := fun k m =>
  match m with
  | NilMap => None
  | Map entries => entries !! k
  end.

(** [idx.IndexDocument] (common/idx): the inlined option map, the key
    pattern and the partial filter expression.  Indexing [Options] at an
    absent key yields the nil interface. *)
Record IndexDocument := {
  Options : bsonM;
  Key : D;
  PartialFilterExpression : D
}.

Definition option_of (index : IndexDocument) (k : string) : value :=
  default VNil (Options index !! k).

(** [index.Options[k] = v]: there is no document left to go on with when
    the map is nil, where the assignment panics. *)
Definition set_option (k : string) (v : value) (index : IndexDocument)
  : option IndexDocument :=
  match Options index with
  | NilMap => None
  | Map entries =>
      Some {| Options := Map (<[k := v]> entries);
              Key := Key index;
              PartialFilterExpression := PartialFilterExpression index |}
  end.

(** [delete(index.Options, k)]. *)
Definition delete_option (k : string) (index : IndexDocument)
  : IndexDocument :=
  {| Options := match Options index with
                | NilMap => NilMap
                | Map entries => Map (delete k entries)
                end;
     Key := Key index;
     PartialFilterExpression := PartialFilterExpression index |}.

(** Values of a server command: a plain value, the [indexes] array of a
    [createIndexes] command, or a [bson.M]. *)
Inductive cvalue :=
| CV (v : value)
| CIndexes (indexes : list IndexDocument)
| CM (m : gmap string value).

Definition command : Type := list (string * cvalue).

(** The first value stored under a key of a command. *)
Fixpoint field (k : string) (cmd : command) : option cvalue :=
  match cmd with
  | [] => None
  | (k', v) :: rest => if String.eqb k k' then Some v else field k rest
  end.

(** ** The outside world *)

(** The entry that [createCollectionWithApplyOps] hands to [ApplyOps];
    [UI] is the subtype and the data of the binary. *)
Record createOp := {
  Operation : string;
  Namespace : string;
  Object : command;
  UI : option (Z * list Byte.byte)
}.

(** What the code does to the server and to the dump files, in order;
    [OpPanic] is the event of a run-time panic, which ends the call. *)
Inductive op :=
| OpGetSession
| OpRunCommand (dbName : string) (cmd : command)
| OpApplyOps (entries : list createOp)
| OpInsertOne (dbName coll : string) (doc : IndexDocument)
| OpDrop (dbName coll : string)
| OpListCollections (dbName : string)
| OpBSONFileOpen (location : string)
| OpBSONFileClose (location : string)
| OpBSONSourceClose (location : string)
| OpRestoreCollectionToDB (dbName coll : string) (location : string)
| OpPanic (reason : string).

(** [mongo.SingleResult]: its [Err()] and what [Decode] yields. *)
Record SingleResult := {
  Err : option error;
  Decode : error + gmap string value
}.

(** The [name] field of a listed collection, [StringValueOK] applied. *)
Inductive RawName :=
| RawString (s : string)
| RawOther (rendering : string).

Record Metadata := {
  MetaOptions : D;
  Indexes : list IndexDocument;
  UUID : string;
  CollectionName : string
}.

(** The collaborators of the code modelled here: the driver, the BSON
    files, the collection pipeline, [restore.ApplyOps] and [util.IsFalsy].
    Each answer of the server or the files may depend on everything done
    so far. *)
Record Env := {
  envGetSession : list op -> option error;
  envRunCommand : list op -> string -> command -> SingleResult;
  envInsertOne : list op -> string -> string -> IndexDocument -> option error;
  envDrop : list op -> string -> string -> option error;
  envListCollections : list op -> string -> error + list RawName;
  envBSONFileOpen : list op -> string -> option error;
  envRestoreCollectionToDB : list op -> string -> string -> string -> option error;
  envApplyOps : list op -> list createOp -> option error;
  envIsFalsy : value -> bool;
  envUnmarshalExtJSON : list Byte.byte -> bool -> Metadata -> error + Metadata
}.

(** A call deferred by [RestoreUsersOrRoles]. *)
Inductive deferredCall :=
| DeferBSONFileClose (location : string)
| DeferBSONSourceClose (location : string)
| DeferDropTemp (tempCollectionName : string).

(** The state the code acts on: the operations done and the lines logged
    so far (oldest first), the [knownCollections] cache of the restore
    object, and the deferred calls of the running function (latest
    first). *)
Record world := {
  ops : list op;
  logs : list logline;
  knownCollections : gmap string (list string);
  deferred : list deferredCall
}.

Definition add_op (o : op) (w : world) : world :=
  {| ops := ops w ++ [o]; logs := logs w;
     knownCollections := knownCollections w; deferred := deferred w |}.

Definition add_log (l : logline) (w : world) : world :=
  {| ops := ops w; logs := logs w ++ [l];
     knownCollections := knownCollections w; deferred := deferred w |}.

Definition set_knownCollections (k : gmap string (list string)) (w : world)
  : world :=
  {| ops := ops w; logs := logs w; knownCollections := k;
     deferred := deferred w |}.

Definition set_deferred (d : list deferredCall) (w : world) : world :=
  {| ops := ops w; logs := logs w;
     knownCollections := knownCollections w; deferred := d |}.

(** ** The monad of a Go function that acts on the world and may return an
    error *)

Definition M (A : Type) : Type := world -> (error + A) * world.

#[global] Instance M_ret : MRet M := fun A (a : A) w => (inr a, w).

#[global] Instance M_bind : MBind M := fun A B (f : A -> M B) (m : M A) w =>
  match m w with
  | (inl e, w') => (inl e, w')
  | (inr a, w') => f a w'
  end.

(** [return err]. *)
Definition fail {A : Type} (e : error) : M A := fun w => (inl e, w).

(** A run-time panic of the code: the event is recorded and the call ends
    there.  The result holds the run-time error raised, which is not an
    error returned to a caller: no function here calls one that panics. *)
Definition panic {A : Type} (reason : string) : M A := fun w =>
  (inl (errors_New reason), add_op (OpPanic reason) w).

(** [if err != nil { return f(err) }] around a call. *)
Definition wrapErr {A : Type} (f : error -> error) (m : M A) : M A := fun w =>
  match m w with
  | (inl e, w') => (inl (f e), w')
  | r => r
  end.

(** A call whose error is kept as a value. *)
Definition attempt {A : Type} (m : M A) : M (error + A) := fun w =>
  let '(r, w') := m w in (inr r, w').

(** [fmt.Errorf(prefix + "%v", err)]. *)
Definition Errorf (prefix : string) (e : error) : error :=
  errors_New (prefix +:+ Error e).

(** [log.Logv] and [log.Logvf], the message already formatted. *)
Definition Logv (lvl : Level) (msg : string) : M unit := fun w =>
  (inr tt, add_log (lvl, msg) w).

(** An operation answered with an error or nil. *)
Definition perform (o : op) (answer : list op -> option error) : M unit :=
  fun w =>
    match answer (ops w) with
    | Some e => (inl e, add_op o w)
    | None => (inr tt, add_op o w)
    end.

Definition defer (d : deferredCall) : M unit := fun w =>
  (inr tt, set_deferred (d :: deferred w) w).

Definition tab : string := String "009" "".

(** [strings.Join]. *)
Fixpoint Join (elems : list string) (sep : string) : string :=
  match elems with
  | [] => ""
  | [s] => s
  | s :: rest => s +:+ sep +:+ Join rest sep
  end.

(** ** Package encoding/hex *)
Module hex.

Definition fromHexChar (c : ascii) : option N :=
  let n := N_of_ascii c in
  if ((48 <=? n) && (n <=? 57))%N then Some (n - 48)%N
  else if ((97 <=? n) && (n <=? 102))%N then Some (n - 87)%N
  else if ((65 <=? n) && (n <=? 70))%N then Some (n - 55)%N
  else None.

Definition upperHexDigit (n : N) : string :=
  String.substring (N.to_nat n) 1 "0123456789ABCDEF".

(** [unicode.IsPrint] on the runes below 256. *)
Definition isPrint (n : N) : bool :=
  ((32 <=? n) && (n <=? 126) || (161 <=? n) && negb (n =? 173))%N.

(** The UTF-8 encoding of a rune below 256. *)
Definition utf8 (n : N) : string :=
  if (n <? 128)%N then String (ascii_of_N n) ""
  else if (n <? 192)%N then String (ascii_of_N 194) (String (ascii_of_N n) "")
  else String (ascii_of_N 195) (String (ascii_of_N (n - 64)) "").

(** [InvalidByteError(c).Error()]: the byte formatted with [%#U]. *)
Definition InvalidByteError (c : ascii) : error :=
  let n := N_of_ascii c in
  errors_New ("encoding/hex: invalid byte: U+00"
                +:+ upperHexDigit (n / 16) +:+ upperHexDigit (n mod 16)
                +:+ (if isPrint n then " '" +:+ utf8 n +:+ "'" else "")).

Definition ErrLength : error := errors_New "encoding/hex: odd length hex string".

(** [hex.DecodeString], its bytes dropped when it fails. *)
Fixpoint DecodeString (s : string) : error + list Byte.byte :=
  match s with
  | "" => inr []
  | String p "" =>
      match fromHexChar p with
      | Some _ => inl ErrLength
      | None => inl (InvalidByteError p)
      end
  | String p (String q rest) =>
      match fromHexChar p, fromHexChar q with
      | Some a, Some b =>
          match DecodeString rest with
          | inr bytes => inr (default Byte.x00 (Byte.of_N (16 * a + b)) :: bytes)
          | inl err => inl err
          end
      | None, _ => inl (InvalidByteError p)
      | _, None => inl (InvalidByteError q)
      end
  end.

End hex.

(** ** Package mongorestore *)
Module mongorestore.

Definition Users : string := "users".
Definition Roles : string := "roles".

Record authVersionPair := {
  Dump : Z;
  Server : Z
}.

(** The fields of [OutputOptions] and [options.ToolOptions] read here.
    [WriteConcern] is [None] for a nil write concern; otherwise it holds
    what marshalling it and unmarshalling the bytes into a [bson.M]
    gives, either step's error or the map. *)
Record OutputOptionsT := {
  Drop : bool;
  KeepIndexVersion : bool;
  TempUsersColl : string;
  TempRolesColl : string
}.

Record ToolOptionsT := {
  Namespace_DB : string;
  WriteConcern : option (error + gmap string value)
}.

Record MongoRestore := {
  OutputOptions : OutputOptionsT;
  ToolOptions : ToolOptionsT;
  serverVersion : db.Version;
  authVersions : authVersionPair
}.

(** [intents.Intent] (common/intents): the fields read here; [Location]
    also names the intent's [BSONFile]. *)
Record Intent := {
  DB : string;
  C : string;
  Size : Z;
  Location : string
}.

Section Restore.

Context (env : Env) (restore : MongoRestore).

Definition GetSession : M unit := perform OpGetSession (envGetSession env).

(** [&Metadata{}]. *)
Definition zeroMetadata : Metadata :=
  {| MetaOptions := []; Indexes := []; UUID := ""; CollectionName := "" |}.

(** [MetadataFromJSON]: the Go pair (pointer, error). *)
Definition MetadataFromJSON (jsonBytes : list Byte.byte)
  : option Metadata * option error :=
  if (length jsonBytes =? 0)%nat then (None, None)
  else
    let meta := zeroMetadata in
    match envUnmarshalExtJSON env jsonBytes true meta with
    | inl err => (None, Some err)
    | inr meta => (Some meta, None)
    end.

(** *** CollectionExists *)

(** [restore.knownCollections[dbName]]; a nil slice is the empty list
    (the cache only ever holds slices grown by [append]). *)
Definition known (dbName : string) : M (list string) := fun w =>
  (inr (default [] (knownCollections w !! dbName)), w).

Definition appendKnown (dbName colName : string) : M unit := fun w =>
  let k := knownCollections w in
  (inr tt, set_knownCollections
             (<[dbName := (default [] (k !! dbName) ++ [colName])%list]> k) w).

Definition ListCollections (dbName : string) : M (list RawName) := fun w =>
  match envListCollections env (ops w) dbName with
  | inl e => (inl e, add_op (OpListCollections dbName) w)
  | inr l => (inr l, add_op (OpListCollections dbName) w)
  end.

Fixpoint cacheNames (dbName : string) (collections : list RawName) : M unit :=
  match collections with
  | [] => mret tt
  | RawString colName :: rest =>
      appendKnown dbName colName;; cacheNames dbName rest
  | RawOther r :: _ => fail (errors_New ("invalid collection name: " +:+ r))
  end.

Definition CollectionExists (dbName coll : string) : M bool :=
  cached ← known dbName;
  match cached with
  | [] =>
      wrapErr (Errorf "error establishing connection: ") GetSession;;
      collections ← ListCollections dbName;
      cacheNames dbName collections
  | _ => mret tt
  end;;
  cached ← known dbName;
  mret (bool_decide (coll ∈ cached)).

(** *** CreateIndexes *)

Definition fullIndexName (index : IndexDocument) : string :=
  Sprint (option_of index "ns") +:+ ".$" +:+ Sprint (option_of index "name").

(** How the first loop of [CreateIndexes] ends: in a panic, in an error
    that is returned, or with the documents to send and the index names. *)
Inductive sanitized :=
| Panics (reason : string)
| Fails (err : error)
| Sanitized (indexes : list IndexDocument) (indexNames : list string).

(** The first loop of [CreateIndexes].  It updates the documents in
    place: when it completes, each is left with [ns] set and, unless the
    version is kept, without [v]; a document listed twice is left the
    same as two equal documents, since the updates are idempotent and no
    check reads what they change.  What the loop has done to the
    caller's documents when it stops early is left out. *)
Fixpoint sanitizeIndexes (dbName collectionName : string)
    (indexes : list IndexDocument) : sanitized :=
  match indexes with
  | [] => Sanitized [] []
  | index :: rest =>
      match set_option "ns" (VString (dbName +:+ "." +:+ collectionName)) index with
      | None => Panics "assignment to entry in nil map"
      | Some index =>
          if db.LT (serverVersion restore) (4, 2, 0)
             && (127 <? String.length (fullIndexName index))%nat
          then Fails (errors_New ("cannot restore index with namespace '"
                        +:+ fullIndexName index +:+ "': "
                        +:+ "namespace is too long (max size is 127 bytes)"))
          else
            match option_of index "name" with
            | VString nameStr =>
                let index :=
                  if negb (KeepIndexVersion (OutputOptions restore))
                  then delete_option "v" index else index in
                match sanitizeIndexes dbName collectionName rest with
                | Sanitized rest indexNames =>
                    Sanitized (index :: rest) (nameStr :: indexNames)
                | stopped => stopped
                end
            | name =>
                Fails (errors_New ("expected name (" +:+ TypeOf name +:+ ": "
                         +:+ Sprint name +:+ ") to be a string"))
            end
      end
  end.

Definition RunCommand (dbName : string) (cmd : command) : M SingleResult :=
  fun w => (inr (envRunCommand env (ops w) dbName cmd),
            add_op (OpRunCommand dbName cmd) w).

Definition InsertOne (dbName coll : string) (doc : IndexDocument) : M unit :=
  perform (OpInsertOne dbName coll doc) (fun h => envInsertOne env h dbName coll doc).

Definition DropCollectionOp (dbName coll : string) : M unit :=
  perform (OpDrop dbName coll) (fun h => envDrop env h dbName coll).

Definition LegacyInsertIndex (dbName : string) (index : IndexDocument) : M unit :=
  wrapErr (Errorf "error establishing connection: ") GetSession;;
  wrapErr (Errorf "insert error: ") (InsertOne dbName "system.indexes" index).

(** The fallback loop of [CreateIndexes]. *)
Fixpoint legacyInsertAll (dbName : string) (indexes : list IndexDocument)
  : M unit :=
  match indexes with
  | [] => mret tt
  | idx :: rest =>
      let name := Sprint (option_of idx "name") in
      Logv Info (tab +:+ "manually creating index " +:+ name);;
      wrapErr (fun err => errors_New ("error creating index " +:+ name
                                        +:+ ": " +:+ Error err))
              (LegacyInsertIndex dbName idx);;
      legacyInsertAll dbName rest
  end.

Definition createIndexesCommand (collectionName : string)
    (indexes : list IndexDocument) : command :=
  let rawCommand := [("createIndexes", CV (VString collectionName));
                     ("indexes", CIndexes indexes)] in
  if db.GTE (serverVersion restore) (4, 1, 9)
  then (rawCommand ++ [("ignoreUnknownIndexOptions", CV (VBool true))])%list
  else rawCommand.

Definition CreateIndexes (dbName collectionName : string)
    (indexes : list IndexDocument) : M unit :=
  match sanitizeIndexes dbName collectionName indexes with
  | Panics reason => panic reason
  | Fails err => fail err
  | Sanitized indexes indexNames =>
      wrapErr (Errorf "error establishing connection: ") GetSession;;
      Logv Info (tab +:+ "run create Index command for indexes: "
                     +:+ Join indexNames ", ");;
      res ← RunCommand dbName (createIndexesCommand collectionName indexes);
      match Err res with
      | None => mret tt
      | Some err =>
          if negb (String.eqb (Error err) "no such cmd: createIndexes")
          then fail (Errorf "createIndex error: " err)
          else
            Logv Info (tab +:+ "createIndexes command not supported, attemping legacy index insertion");;
            legacyInsertAll dbName indexes
      end
  end.

(** *** UpdateAutoIndexId *)

(** The [range] loop over [options], from index [i] for [n] more
    elements; [options[i].Value = true] updates the slice in place. *)
Fixpoint UpdateAutoIndexId_from (n i : nat) (options : D) : M D :=
  match n with
  | O => mret options
  | S n =>
      match options !! i with
      | Some elem =>
          if String.eqb elem.1 "autoIndexId" && is_false elem.2
             && negb (String.eqb (Namespace_DB (ToolOptions restore)) "local")
          then
            let options := <[i := (elem.1, VBool true)]> options in
            Logv Always "{autoIndexId: false} is not allowed in server versions >= 4.0. Changing to {autoIndexId: true}.";;
            UpdateAutoIndexId_from n (S i) options
          else UpdateAutoIndexId_from n (S i) options
      | None => mret options
      end
  end.

(** [UpdateAutoIndexId]: the options as the call leaves them. *)
Definition UpdateAutoIndexId (options : D) : M D :=
  if db.GTE (serverVersion restore) (4, 0, 0)
  then UpdateAutoIndexId_from (List.length options) 0 options
  else mret options.

Definition createCollectionCommand (intent : Intent) (options : D) : command :=
  ([("create", CV (VString (C intent)))] ++ map (fun elem => (elem.1, CV elem.2)) options)%list.

(** *** CreateCollection *)

Definition createCollectionWithCommand (intent : Intent) (options : D) : M unit :=
  options ← UpdateAutoIndexId options;
  let command := createCollectionCommand intent options in
  singleRes ← RunCommand (DB intent) command;
  match Err singleRes with
  | Some err => fail (Errorf "error running create command: " err)
  | None =>
      match Decode singleRes with
      | inl err => fail (Errorf "error decoding result of create command: " err)
      | inr res =>
          if envIsFalsy env (default VNil (res !! "ok"))
          then fail (errors_New ("create command: "
                                   +:+ Sprint (default VNil (res !! "errmsg"))))
          else mret tt
      end
  end.

Definition ApplyOps (entries : list createOp) : M unit :=
  perform (OpApplyOps entries) (fun h => envApplyOps env h entries).

Definition createCollectionWithApplyOps (intent : Intent) (options : D)
    (uuidHex : string) : M unit :=
  options ← UpdateAutoIndexId options;
  let command := createCollectionCommand intent options in
  match hex.DecodeString uuidHex with
  | inl err =>
      fail (Errorf "Couldn't restore UUID because UUID was invalid: " err)
  | inr uuid =>
      let createOp := {| Operation := "c";
                         Namespace := DB intent +:+ ".$cmd";
                         Object := command;
                         UI := Some (4, uuid) |} in
      ApplyOps [createOp]
  end.

Definition CreateCollection (intent : Intent) (options : D) (uuid : string)
  : M unit :=
  wrapErr (Errorf "error establishing connection: ") GetSession;;
  if negb (String.eqb uuid "")
  then createCollectionWithApplyOps intent options uuid
  else createCollectionWithCommand intent options.

(** *** RestoreUsersOrRoles *)

Record loopArg := {
  intent : Intent;
  intentType : string;
  mergeParamName : string;
  tempCollectionName : string
}.

Definition BSONFileOpen (location : string) : M unit :=
  perform (OpBSONFileOpen location) (fun h => envBSONFileOpen env h location).

Definition RestoreCollectionToDB (dbName coll location : string) : M unit :=
  perform (OpRestoreCollectionToDB dbName coll location)
          (fun h => envRestoreCollectionToDB env h dbName coll location).

(** The deferred closure that drops a temporary collection; its errors
    are only logged. *)
Definition dropTemp (tempCollectionName : string) : M unit :=
  e ← attempt GetSession;
  match e with
  | inl e =>
      Logv Info ("error establishing connection to drop temporary collection admin."
                   +:+ tempCollectionName +:+ ": " +:+ Error e)
  | inr _ =>
      Logv DebugHigh ("dropping temporary collection admin." +:+ tempCollectionName);;
      e ← attempt (DropCollectionOp "admin" tempCollectionName);
      match e with
      | inl e =>
          Logv Info ("error dropping temporary collection admin."
                       +:+ tempCollectionName +:+ ": " +:+ Error e)
      | inr _ => mret tt
      end
  end.

Definition runDeferred (d : deferredCall) : M unit :=
  match d with
  | DeferBSONFileClose location =>
      perform (OpBSONFileClose location) (fun _ => None)
  | DeferBSONSourceClose location =>
      perform (OpBSONSourceClose location) (fun _ => None)
  | DeferDropTemp tempCollectionName => dropTemp tempCollectionName
  end.

Fixpoint runAllDeferred (ds : list deferredCall) (w : world) : world :=
  match ds with
  | [] => w
  | d :: ds => runAllDeferred ds (runDeferred d w).2
  end.

(** A function body with [defer] statements: the deferred calls run, last
    first, whenever the body returns. *)
Definition withDeferred {A : Type} (body : M A) : M A := fun w =>
  let '(r, w1) := body (set_deferred [] w) in
  (r, set_deferred (deferred w) (runAllDeferred (deferred w1) w1)).

(** One round of the loop over the users and roles arguments: the merge
    arguments and the target database it leaves. *)
Definition restoreArg (arg : loopArg) (mergeArgs : command)
  : M (command * string) :=
  (if Size (intent arg) =? 0
   then Logv Always (intentType arg +:+ " file '" +:+ Location (intent arg)
                       +:+ "' is empty; skipping " +:+ intentType arg
                       +:+ " restoration")
   else mret tt);;
  Logv Always ("restoring " +:+ intentType arg +:+ " from "
                 +:+ Location (intent arg));;
  let mergeArgs :=
    (mergeArgs ++ [(mergeParamName arg,
                    CV (VString ("admin." +:+ tempCollectionName arg)))])%list in
  BSONFileOpen (Location (intent arg));;
  defer (DeferBSONFileClose (Location (intent arg)));;
  defer (DeferBSONSourceClose (Location (intent arg)));;
  tempCollectionNameExists ← CollectionExists "admin" (tempCollectionName arg);
  (if tempCollectionNameExists : bool
   then
     Logv Info ("dropping preexisting temporary collection admin."
                  +:+ tempCollectionName arg);;
     wrapErr (fun err => errors_New ("error dropping preexisting temporary collection "
                                       +:+ tempCollectionName arg +:+ ": "
                                       +:+ Error err))
             (DropCollectionOp "admin" (tempCollectionName arg))
   else mret tt);;
  Logv DebugLow ("restoring " +:+ intentType arg +:+ " to temporary collection");;
  wrapErr (fun err => errors_New ("error restoring " +:+ intentType arg +:+ ": "
                                    +:+ Error err))
          (RestoreCollectionToDB "admin" (tempCollectionName arg)
                                 (Location (intent arg)));;
  defer (DeferDropTemp (tempCollectionName arg));;
  mret (mergeArgs, DB (intent arg)).

Fixpoint restoreArgs (args : list loopArg) (mergeArgs : command)
    (userTargetDB : string) : M (command * string) :=
  match args with
  | [] => mret (mergeArgs, userTargetDB)
  | arg :: args =>
      '(mergeArgs, userTargetDB) ← restoreArg arg mergeArgs;
      restoreArgs args mergeArgs userTargetDB
  end.

Definition mergeCommand (mergeArgs : command) (userTargetDB : string)
  : command :=
  ([("_mergeAuthzCollections", CV (VInt 1))] ++ mergeArgs
   ++ [("drop", CV (VBool (Drop (OutputOptions restore))));
       ("db", CV (VString userTargetDB))])%list.

Definition RestoreUsersOrRoles_body (users roles : option Intent) : M unit :=
  match users, roles with
  | None, None => mret tt
  | _, _ =>
      match users, roles with
      | Some u, Some r =>
          if negb (String.eqb (DB u) (DB r))
          then fail (errors_New ("can't restore users and roles to different databases, "
                                   +:+ DB u +:+ " and " +:+ DB r))
          else mret tt
      | _, _ => mret tt
      end;;
      let args :=
        (match users with
         | Some u => [{| intent := u; intentType := "users";
                         mergeParamName := "tempUsersCollection";
                         tempCollectionName := TempUsersColl (OutputOptions restore) |}]
         | None => []
         end ++
         match roles with
         | Some r => [{| intent := r; intentType := "roles";
                         mergeParamName := "tempRolesCollection";
                         tempCollectionName := TempRolesColl (OutputOptions restore) |}]
         | None => []
         end)%list in
      wrapErr (Errorf "error establishing connection: ") GetSession;;
      '(mergeArgs, userTargetDB) ← restoreArgs args [] "";
      let userTargetDB :=
        if String.eqb userTargetDB "admin" then "" else userTargetDB in
      let command := mergeCommand mergeArgs userTargetDB in
      command ← match WriteConcern (ToolOptions restore) with
                | None => mret command
                | Some (inl err) => fail (Errorf "error parsing write concern: " err)
                | Some (inr writeConcern) =>
                    mret (command ++ [("writeConcern", CM writeConcern)])%list
                end;
      Logv DebugLow "merging users/roles from temp collections";;
      resSingle ← RunCommand "admin" command;
      match Err resSingle with
      | Some err => fail (Errorf "error running merge command: " err)
      | None =>
          match Decode resSingle with
          | inl err => fail (Errorf "error decoding result of merge command: " err)
          | inr res =>
              if envIsFalsy env (default VNil (res !! "ok"))
              then fail (errors_New ("_mergeAuthzCollections command: "
                                       +:+ Sprint (default VNil (res !! "errmsg"))))
              else mret tt
          end
      end
  end.

Definition RestoreUsersOrRoles (users roles : option Intent) : M unit :=
  withDeferred (RestoreUsersOrRoles_body users roles).

(** *** ValidateAuthVersions *)

Definition isPair (p : authVersionPair) (dump server : Z) : bool :=
  (Dump p =? dump) && (Server p =? server).

Definition ValidateAuthVersions : M unit :=
  let p := authVersions restore in
  if (Dump p =? 2) || (Dump p =? 4) then
    fail (errors_New ("cannot restore users and roles from a dump file with auth version "
                        +:+ pretty (Dump p) +:+ "; "
                        +:+ "finish the upgrade or roll it back"))
  else if (Server p =? 2) || (Server p =? 4) then
    fail (errors_New ("cannot restore users and roles to a server with auth version "
                        +:+ pretty (Server p) +:+ "; "
                        +:+ "finish the upgrade or roll it back"))
  else if isPair p 3 5 then
    Logv Info "restoring users and roles of auth version 3 to a server of auth version 5"
  else if isPair p 5 5 then
    Logv Info "restoring users and roles of auth version 5 to a server of auth version 5"
  else if isPair p 3 3 then
    Logv Info "restoring users and roles of auth version 3 to a server of auth version 3"
  else if isPair p 1 1 then
    Logv Info "restoring users and roles of auth version 1 to a server of auth version 1"
  else if isPair p 1 5 then
    fail (errors_New "cannot restore users of auth version 1 to a server of auth version 5")
  else if isPair p 5 3 then
    fail (errors_New "cannot restore users of auth version 5 to a server of auth version 3")
  else if isPair p 1 3 then
    Logv Info "restoring users and roles of auth version 1 to a server of auth version 3";;
    Logv Always "users and roles will have to be updated with the authSchemaUpgrade command"
  else if isPair p 5 1 || isPair p 3 1 then
    fail (errors_New "cannot restore users and roles dump file >= auth version 3 to a server of auth version 1")
  else
    fail (errors_New ("invalid auth pair: dump=" +:+ pretty (Dump p)
                        +:+ ", server=" +:+ pretty (Server p))).

End Restore.

End mongorestore.

(** ** Notions used to state the properties *)

Import mongorestore.

(** The operations a run added to the world it started from. *)
Definition new_ops (w w' : world) : list op :=
  drop (List.length (ops w)) (ops w').

(** A computation only adds operations satisfying [P], and any result it
    returns satisfies [Q]. *)
Definition emits {A : Type} (P : op -> Prop) (Q : A -> Prop) (m : M A) : Prop :=
  forall w, exists added,
    ops (m w).2 = (ops w ++ added)%list /\ Forall P added /\
    forall a, (m w).1 = inr a -> Q a.

(** The entries of a map; a nil map has none. *)
Definition entriesOf (m : bsonM) : gmap string value :=
  match m with
  | NilMap => ∅
  | Map entries => entries
  end.

(** An index document as [CreateIndexes] sends it: the namespace set, and
    the index version deleted unless it is to be kept. *)
Definition prepared (restore : MongoRestore) (dbName collectionName : string)
    (index : IndexDocument) : IndexDocument :=
  let options :=
    <["ns" := VString (dbName +:+ "." +:+ collectionName)]>
      (entriesOf (Options index)) in
  {| Options := Map (if KeepIndexVersion (OutputOptions restore) then options
                     else delete "v" options);
     Key := Key index;
     PartialFilterExpression := PartialFilterExpression index |}.

(** The fully-qualified name of an index of a collection. *)
Definition qualifiedName (dbName collectionName : string)
    (index : IndexDocument) : string :=
  (dbName +:+ "." +:+ collectionName) +:+ ".$" +:+ Sprint (option_of index "name").

(** The operations of the legacy insertion of index documents. *)
Definition legacyOps (dbName : string) (indexes : list IndexDocument) : list op :=
  flat_map (fun idx => [OpGetSession; OpInsertOne dbName "system.indexes" idx])
           indexes.

(** An index document that passes the checks of [CreateIndexes]: its name
    is a string and, below 4.2, its fully-qualified name fits. *)
Definition indexOk (restore : MongoRestore) (dbName collectionName : string)
    (index : IndexDocument) : Prop :=
  (db.LT (serverVersion restore) (4, 2, 0) = true ->
   (String.length (qualifiedName dbName collectionName index) <= 127)%nat)
  /\ exists nameStr, option_of index "name" = VString nameStr.





(** Two worlds that differ at most in what was logged. *)
Definition same_but_logs (w1 w2 : world) : Prop :=
  ops w1 = ops w2 /\ knownCollections w1 = knownCollections w2
  /\ deferred w1 = deferred w2.

(** Two computations that, from such worlds, return the same and leave
    such worlds. *)
Definition alike {A : Type} (m1 m2 : M A) : Prop :=
  forall w1 w2, same_but_logs w1 w2 ->
    (m1 w1).1 = (m2 w2).1 /\ same_but_logs (m1 w1).2 (m2 w2).2.

(** An intent with another size, and a loop argument with such an intent. *)
Definition resize (n : Z) (i : Intent) : Intent :=
  {| DB := DB i; C := C i; Size := n; Location := Location i |}.

Definition resizeArg (n : Z) (arg : loopArg) : loopArg :=
  {| intent := resize n (intent arg); intentType := intentType arg;
     mergeParamName := mergeParamName arg;
     tempCollectionName := tempCollectionName arg |}.

(** The auth-version pairs the [switch] of [ValidateAuthVersions] names. *)
Definition recognizedPair (d s : Z) : Prop :=
  (d = 3 /\ s = 5) \/ (d = 5 /\ s = 5) \/ (d = 3 /\ s = 3) \/ (d = 1 /\ s = 1)
  \/ (d = 1 /\ s = 5) \/ (d = 5 /\ s = 3) \/ (d = 1 /\ s = 3)
  \/ (d = 5 /\ s = 1) \/ (d = 3 /\ s = 1).

(** An option element as [UpdateAutoIndexId] leaves it on a server at or
    above 4.0. *)
Definition rewriteElem (restore : MongoRestore) (elem : E) : E :=
  if String.eqb elem.1 "autoIndexId" && is_false elem.2
     && negb (String.eqb (Namespace_DB (ToolOptions restore)) "local")
  then (elem.1, VBool true) else elem.

(** The options as [UpdateAutoIndexId] leaves them. *)
Definition rewritten (restore : MongoRestore) (options : D) : D :=
  if db.GTE (serverVersion restore) (4, 0, 0)
  then map (rewriteElem restore) options else options.


(** A server error carrying one of the ignorable codes. *)
Definition hasIgnorableCode (e : error) : Prop :=
  exists HasErrorCode, AsServerError e = Some HasErrorCode
    /\ (HasErrorCode 11000 = true \/ HasErrorCode 121 = true).

(** The lines [FilterError] logs for an error it continues through: one
    per write error of a bulk write exception, else one for the error. *)
Definition continueLines (e : error) : list logline :=
  match AsBulkWriteException e with
  | Some WriteErrors =>
      map (fun m => (Always, "continuing through error: " +:+ m)) WriteErrors
  | None => [(Always, "continuing through error: " +:+ Error e)]
  end.

(** ** Sample inputs *)
Module Samples.

Definition okResult : SingleResult :=
  {| Err := None; Decode := inr {[ "ok" := VInt 1 ]} |}.

Definition isFalsy (v : value) : bool :=
  match v with
  | VNil | VBool false | VInt 0 | VInt32 0 | VInt64 0 => true
  | _ => false
  end.

(** A server and dump where every call succeeds; [admin] holds only
    [system.version]. *)
Definition quietEnv : Env := {|
  envGetSession := fun _ => None;
  envRunCommand := fun _ _ _ => okResult;
  envInsertOne := fun _ _ _ _ => None;
  envDrop := fun _ _ _ => None;
  envListCollections := fun _ _ => inr [RawString "system.version"];
  envBSONFileOpen := fun _ _ => None;
  envRestoreCollectionToDB := fun _ _ _ _ => None;
  envApplyOps := fun _ _ => None;
  envIsFalsy := isFalsy;
  envUnmarshalExtJSON := fun _ _ meta => inr meta
|}.

(** A server without the [createIndexes] command. *)
Definition legacyEnv : Env := {|
  envGetSession := fun _ => None;
  envRunCommand := fun _ _ _ =>
    {| Err := Some (errors_New "no such cmd: createIndexes");
       Decode := inl (errors_New "no such cmd: createIndexes") |};
  envInsertOne := fun _ _ _ _ => None;
  envDrop := fun _ _ _ => None;
  envListCollections := fun _ _ => inr [];
  envBSONFileOpen := fun _ _ => None;
  envRestoreCollectionToDB := fun _ _ _ _ => None;
  envApplyOps := fun _ _ => None;
  envIsFalsy := isFalsy;
  envUnmarshalExtJSON := fun _ _ _ => inl (errors_New "invalid JSON input")
|}.

Definition restoreAt (v : db.Version) (dbName : string) (keep : bool)
  : MongoRestore := {|
  OutputOptions := {| Drop := true; KeepIndexVersion := keep;
                      TempUsersColl := "tempusers";
                      TempRolesColl := "temproles" |};
  ToolOptions := {| Namespace_DB := dbName; WriteConcern := None |};
  serverVersion := v;
  authVersions := {| Dump := 3; Server := 5 |}
|}.

Definition emptyWorld : world :=
  {| ops := []; logs := []; knownCollections := ∅; deferred := [] |}.

(** A users intent whose data file is empty. *)
Definition emptyUsers : Intent :=
  {| DB := "admin"; C := "system.users"; Size := 0;
     Location := "dump/admin/system.users.bson" |}.

Definition someRoles : Intent :=
  {| DB := "shop"; C := "system.roles"; Size := 212;
     Location := "dump/shop/system.roles.bson" |}.

Definition index_a : IndexDocument :=
  {| Options := Map {[ "name" := VString "a_1"; "v" := VInt32 2 ]};
     Key := [("a", VInt32 1)];
     PartialFilterExpression := [] |}.

(** An index whose name has 120 bytes. *)
Definition index_long : IndexDocument :=
  {| Options := Map {[ "name" := VString (String.concat "" (repeat "aaaaaaaaaa" 12)) ]};
     Key := [("a", VInt32 1)];
     PartialFilterExpression := [] |}.

(** A duplicate-key server error, and the error of an unacknowledged
    write. *)
Definition duplicateKey : error :=
  {| Error := "E11000 duplicate key error";
     AsServerError := Some (fun code => code =? 11000);
     AsBulkWriteException := None |}.

Definition unacknowledged : error := errors_New "unacknowledged write".

End Samples.

(** * Further code of the two files *)

(** ** Package db: the session provider and the X.509 user name *)
Module dbconn.

(** [strings.Split] with a one-byte separator: the pieces between the
    separators; one piece more than there are separators. *)
Fixpoint Split (s : string) (sep : ascii) : list string :=
  match s with
  | "" => [""]
  | String c rest =>
      if Ascii.eqb c sep then "" :: Split rest sep
      else match Split rest sep with
           | piece :: pieces => String c piece :: pieces
           | [] => [String c ""]
           end
  end.

(** The loop of [extractX509UsernameFromSubject]: it swaps [pairs[left]]
    and [pairs[right]] in place while [left < right]; [rounds] bounds its
    rounds (it makes fewer than [len(pairs)]). *)
Fixpoint swapPairs (rounds : nat) (left right : Z) (pairs : list string)
  : list string :=
  match rounds with
  | O => pairs
  | S rounds =>
      if left <? right then
        match pairs !! Z.to_nat left, pairs !! Z.to_nat right with
        | Some l, Some r =>
            swapPairs rounds (left + 1) (right - 1)
                      (<[Z.to_nat right := l]> (<[Z.to_nat left := r]> pairs))
        | _, _ => pairs
        end
      else pairs
  end.

Definition extractX509UsernameFromSubject (subject : string) : string :=
  let pairs := Split subject "," in
  let pairs := swapPairs (List.length pairs) 0 (Z.of_nat (List.length pairs) - 1) pairs in
  Join pairs ",".

(** [SessionProvider]: the client it holds, [None] once closed.  The
    mutex is left out: calls are taken one at a time. *)
Record SessionProvider (Client : Type) := {
  client : option Client
}.
Arguments client {Client}.

(** [GetSession]: the Go pair (client, error). *)
Definition GetSession {Client : Type} (sp : SessionProvider Client)
  : option Client * option error :=
  match client sp with
  | None => (None, Some (errors_New "SessionProvider already closed"))
  | Some c => (Some c, None)
  end.

(** [Close]: the provider it leaves and the clients it disconnected. *)
Definition Close {Client : Type} (sp : SessionProvider Client)
  : SessionProvider Client * list Client :=
  match client sp with
  | Some c => ({| client := None |}, [c])
  | None => (sp, [])
  end.

(** A call on a session provider, and a run of calls: the provider left,
    what each [GetSession] returned, and the clients disconnected. *)
Inductive call := CallGetSession | CallClose.

Fixpoint calls {Client : Type} (cs : list call) (sp : SessionProvider Client)
  : SessionProvider Client * list (option Client * option error) * list Client :=
  match cs with
  | [] => (sp, [], [])
  | CallGetSession :: cs =>
      let '(sp', got, closed) := calls cs sp in
      (sp', GetSession sp :: got, closed)
  | CallClose :: cs =>
      let '(sp1, closed1) := Close sp in
      let '(sp', got, closed) := calls cs sp1 in
      (sp', got, (closed1 ++ closed)%list)
  end.

End dbconn.

(** ** Package mongorestore: the auth version of a dump *)

Module dumpauth.

Record InputOptionsT := { RestoreDBUsersAndRoles : bool }.

(** What [GetDumpAuthVersion] reads of the restore object besides the
    tool options: the version of the server that was dumped, the answer of
    [restore.manager.AuthVersion()] and the input options. *)
Record DumpState := {
  dumpServerVersion : db.Version;
  AuthVersion : option Intent;
  InputOptions : InputOptionsT
}.

(** What a decoded BSON source yields: the documents [Next] decodes before
    it returns false, and what [Err] says then. *)
Record BSONSource := {
  documents : list (gmap string value);
  sourceErr : option error
}.

(** [id, ok := versionDoc["_id"].(string); ok && id == "authSchema"]. *)
Definition isAuthSchema (versionDoc : gmap string value) : bool :=
  match versionDoc !! "_id" with
  | Some (VString id) => String.eqb id "authSchema"
  | _ => false
  end.

(** The loop of [GetDumpAuthVersion] over the documents of the source,
    with the version it returns, or none when it breaks out.  [int] is
    taken to be 64 bits wide, so that [int(authVersion)] keeps an int32
    and an int64 as they are. *)
Fixpoint scanVersionDocs (docs : list (gmap string value)) : M (option Z) :=
  match docs with
  | [] => mret None
  | versionDoc :: rest =>
      if isAuthSchema versionDoc
      then
        match default VNil (versionDoc !! "currentVersion") with
        | VInt authVersion | VInt32 authVersion | VInt64 authVersion =>
            mret (Some authVersion)
        | currentVersion =>
            fail (errors_New ("can't unmarshal system.version curentVersion as an int: "
                                +:+ Sprint currentVersion))
        end
      else
        Logv DebugLow ("system.version document is not an authSchema "
                         +:+ Sprint (default VNil (versionDoc !! "_id")));;
        scanVersionDocs rest
  end.

Section GetDumpAuthVersion.

(** The environment, the restore object, and two things of code that is not
    among the sources: how [%v] prints a [db.Version], and what the BSON
    file at a location holds. *)
Context (env : Env) (restore : MongoRestore) (state : DumpState)
        (versionString : db.Version -> string)
        (sourceOf : string -> BSONSource).

(** The body of [GetDumpAuthVersion]; the 0 that the code returns beside
    an error is left out. *)
Definition GetDumpAuthVersion_body : M Z :=
  if db.GTE (dumpServerVersion state) (8, 1, 0)
  then
    Logv DebugLow ("skipping authSchema check for server version "
                     +:+ versionString (dumpServerVersion state));;
    mret 5
  else
    match AuthVersion state with
    | None =>
        if RestoreDBUsersAndRoles (InputOptions state)
        then
          Logv Always ("no system.version bson file found in '"
                         +:+ Namespace_DB (ToolOptions restore)
                         +:+ "' database dump");;
          Logv Always "warning: assuming users and roles collections are of auth version 3";;
          Logv Always "if users are from an earlier version of MongoDB, they may not restore properly";;
          mret 3
        else
          Logv Info "no system.version bson file found in dump";;
          Logv Always "assuming users in the dump directory are from <= 2.4 (auth version 1)";;
          mret 1
    | Some intent =>
        BSONFileOpen env (Location intent);;
        defer (DeferBSONFileClose (Location intent));;
        let bsonSource := sourceOf (Location intent) in
        defer (DeferBSONSourceClose (Location intent));;
        found ← scanVersionDocs (documents bsonSource);
        match found with
        | Some authVersion => mret authVersion
        | None =>
            match sourceErr bsonSource with
            | Some err =>
                Logv Info ("can't unmarshal system.version document: " +:+ Error err)
            | None => mret tt
            end;;
            fail (errors_New "system.version bson file does not have authSchema document")
        end
    end.

(** [GetDumpAuthVersion], its deferred closes run when it returns. *)
Definition GetDumpAuthVersion : M Z :=
  withDeferred env GetDumpAuthVersion_body.

End GetDumpAuthVersion.

End dumpauth.

(** ** Notions for the runs of the restore *)

(** A list without the first occurrence of an element. *)
Fixpoint removeFirst {K : Type} `{EqDecision K} (k : K) (l : list K) : list K :=
  match l with
  | [] => []
  | x :: rest => if decide (x = k) then rest else x :: removeFirst k rest
  end.

(** A state followed along the operations [added] after the operations
    [h]: each operation moves the state, or is found out of place. *)
Fixpoint track {S : Type} (step : list op -> op -> S -> option S)
    (h added : list op) (s : S) : option S :=
  match added with
  | [] => Some s
  | o :: rest =>
      match step h o s with
      | Some s' => track step (h ++ [o]) rest s'
      | None => None
      end
  end.

(** The BSON sources and the BSON files that are open, the latest first:
    a file opened with success is open, with its source; a source or a
    file is closed only when it is the latest one open. *)
Definition fileStep (env : Env) (h : list op) (o : op)
    (open : list string * list string) : option (list string * list string) :=
  match o with
  | OpBSONFileOpen location =>
      match envBSONFileOpen env h location with
      | None => Some (location :: open.1, location :: open.2)
      | Some _ => Some open
      end
  | OpBSONSourceClose location =>
      match open.1 with
      | l :: rest => if String.eqb l location then Some (rest, open.2) else None
      | [] => None
      end
  | OpBSONFileClose location =>
      match open.2 with
      | l :: rest => if String.eqb l location then Some (open.1, rest) else None
      | [] => None
      end
  | _ => Some open
  end.

Definition openFiles (env : Env) (h added : list op)
  : option (list string * list string) :=
  track (fileStep env) h added ([], []).

(** The collections that [RestoreCollectionToDB] has filled with success
    and that no drop has been sent for since. *)
Definition tempStep (env : Env) (h : list op) (o : op)
    (temps : list (string * string)) : option (list (string * string)) :=
  match o with
  | OpRestoreCollectionToDB dbName coll location =>
      match envRestoreCollectionToDB env h dbName coll location with
      | None => Some ((dbName, coll) :: temps)
      | Some _ => Some temps
      end
  | OpDrop dbName coll => Some (removeFirst (dbName, coll) temps)
  | _ => Some temps
  end.

Definition filledTemps (env : Env) (h added : list op)
  : option (list (string * string)) :=
  track (tempStep env) h added [].

(** The sources and the files that deferred calls will close, and the
    collections they will drop. *)
Definition sourceCloses (ds : list deferredCall) : list string :=
  omap (fun d => match d with DeferBSONSourceClose l => Some l | _ => None end) ds.

Definition fileCloses (ds : list deferredCall) : list string :=
  omap (fun d => match d with DeferBSONFileClose l => Some l | _ => None end) ds.

Definition dropTemps (ds : list deferredCall) : list (string * string) :=
  omap (fun d => match d with DeferDropTemp t => Some ("admin", t) | _ => None end) ds.

(** A temporary collection named by a merge argument was filled with
    success by one of the operations [added] after [h]. *)
Definition filled (env : Env) (h added : list op) (v : string) : Prop :=
  exists j t location,
    added !! j = Some (OpRestoreCollectionToDB "admin" t location)
    /\ v = "admin." +:+ t
    /\ envRestoreCollectionToDB env (h ++ take j added) "admin" t location = None.

(** Every command among the operations [added] after [h] names, as the
    temporary collections to merge from, only collections filled before
    it. *)
Definition mergesFilled (env : Env) (h added : list op) : Prop :=
  forall i d cmd key v,
    added !! i = Some (OpRunCommand d cmd) ->
    (key, CV (VString v)) ∈ cmd ->
    key = "tempUsersCollection" \/ key = "tempRolesCollection" ->
    filled env h (take i added) v.

(** The sources and files open after the operations [prev] are the ones
    the deferred calls [ds] close. *)
Definition filesDeferred (env : Env) (h0 prev : list op)
    (ds : list deferredCall) : Prop :=
  openFiles env h0 prev = Some (sourceCloses ds, fileCloses ds).

(** The collections filled and not dropped after the operations [prev]
    are among the ones the deferred calls [ds] drop. *)
Definition tempsDeferred (env : Env) (h0 prev : list op)
    (ds : list deferredCall) : Prop :=
  exists temps, filledTemps env h0 prev = Some temps /\ temps ⊆+ dropTemps ds.

(** The merge arguments name collections filled by the operations [prev]. *)
Definition argsFilled (env : Env) (h0 prev : list op) (mergeArgs : command) : Prop :=
  forall key v, (key, CV (VString v)) ∈ mergeArgs -> filled env h0 prev v.

(** A computation started after the operations [h0 ++ prev] with the
    deferred calls [ds] ends in a state of [Post]: its result, the
    operations since [h0] and the deferred calls then. *)
Definition wp {A : Type} (h0 : list op) (m : M A)
    (Post : error + A -> list op -> list deferredCall -> Prop)
    (prev : list op) (ds : list deferredCall) : Prop :=
  forall w, ops w = (h0 ++ prev)%list -> deferred w = ds ->
    exists prev', ops (m w).2 = (h0 ++ prev')%list
                  /\ Post (m w).1 prev' (deferred (m w).2).

(** What a round of the loop of [RestoreUsersOrRoles] keeps: [I] of the
    operations done and the calls deferred, and [J] of the merge arguments
    it returns. *)
Definition loopPost (I : list op -> list deferredCall -> Prop)
    (J : command -> list op -> Prop)
    (r : error + (command * string)) (prev : list op)
    (ds : list deferredCall) : Prop :=
  I prev ds /\ forall mergeArgs userTargetDB,
                 r = inr (mergeArgs, userTargetDB) -> J mergeArgs prev.

(** ** More sample inputs *)
Module Samples2.

Import Samples.

(** A server that lists, for every database, a collection [tempusers],
    then one whose name is the number 7, then [temproles]. *)
Definition oddNamesEnv : Env := {|
  envGetSession := fun _ => None;
  envRunCommand := fun _ _ _ => okResult;
  envInsertOne := fun _ _ _ _ => None;
  envDrop := fun _ _ _ => None;
  envListCollections := fun _ _ =>
    inr [RawString "tempusers"; RawOther "7"; RawString "temproles"];
  envBSONFileOpen := fun _ _ => None;
  envRestoreCollectionToDB := fun _ _ _ _ => None;
  envApplyOps := fun _ _ => None;
  envIsFalsy := isFalsy;
  envUnmarshalExtJSON := fun _ _ meta => inr meta
|}.

(** An index without a name, and one whose option map is nil. *)
Definition index_unnamed : IndexDocument :=
  {| Options := Map {[ "v" := VInt32 2 ]};
     Key := [("b", VInt32 1)];
     PartialFilterExpression := [] |}.

Definition index_nil : IndexDocument :=
  {| Options := NilMap;
     Key := [("c", VInt32 1)];
     PartialFilterExpression := [] |}.




Definition accounts : mongorestore.Intent :=
  {| mongorestore.DB := "shop"; mongorestore.C := "accounts";
     mongorestore.Size := 4096;
     mongorestore.Location := "dump/shop/accounts.bson" |}.

Definition systemVersion : mongorestore.Intent :=
  {| mongorestore.DB := "admin"; mongorestore.C := "system.version";
     mongorestore.Size := 92;
     mongorestore.Location := "dump/admin/system.version.bson" |}.

(** A dump of a 7.0 server with a [system.version] file. *)
Definition dumpOf70 : dumpauth.DumpState :=
  {| dumpauth.dumpServerVersion := (7, 0, 16);
     dumpauth.AuthVersion := Some systemVersion;
     dumpauth.InputOptions := {| dumpauth.RestoreDBUsersAndRoles := false |} |}.

Definition versionString (v : db.Version) : string :=
  let '(major, minor, patch) := v in
  pretty major +:+ "." +:+ pretty minor +:+ "." +:+ pretty patch.

Definition featureDoc : gmap string value :=
  {[ "_id" := VString "featureCompatibilityVersion"; "version" := VString "7.0" ]}.

Definition authSchemaDoc : gmap string value :=
  {[ "_id" := VString "authSchema"; "currentVersion" := VInt32 5 ]}.

(** A [system.version] file with the authSchema document second, and one
    without it whose reading stops at an error. *)
Definition versionFile (location : string) : dumpauth.BSONSource :=
  {| dumpauth.documents := [featureDoc; authSchemaDoc];
     dumpauth.sourceErr := None |}.

Definition brokenFile (location : string) : dumpauth.BSONSource :=
  {| dumpauth.documents := [featureDoc];
     dumpauth.sourceErr := Some (errors_New "unexpected EOF") |}.

End Samples2.

(** * Properties *)

(** ** Strings *)

Lemma length_append (s1 s2 : string) :
  String.length (s1 +:+ s2) = (String.length s1 + String.length s2)%nat.
Proof.
  induction s1 as [|c s1 IH]; [reflexivity|].
  change (String c s1 +:+ s2) with (String c (s1 +:+ s2)). simpl. now rewrite IH.
Qed.

Lemma append_longer (prefix rest : string) :
  prefix <> "" -> prefix +:+ rest <> rest.
Proof.
  intros Hp Heq. apply (f_equal String.length) in Heq.
  rewrite length_append in Heq.
  destruct prefix; [congruence|]. simpl in Heq. lia.
Qed.

Lemma CutPrefix_Some (prefix s rest : string) :
  db.CutPrefix s prefix = Some rest <-> s = prefix +:+ rest.
Proof.
  revert s. induction prefix as [|p prefix IH]; intros s.
  - change ("" +:+ rest) with rest. simpl. split; congruence.
  - change (String p prefix +:+ rest) with (String p (prefix +:+ rest)).
    destruct s as [|c s]; simpl; [split; discriminate|].
    destruct (Ascii.eqb_spec c p) as [->|Hne].
    + rewrite IH. split; congruence.
    + split; [discriminate|]. intros [=]. contradiction.
Qed.

(** ** Timeseries bucket names *)

(** C8: [GetTimeseriesCollNameFromBucket s] returns the name [c] and no
    error exactly when [s] is ["system.buckets."] followed by the non-empty
    [c]; for every other [s] (without the prefix, or the bare prefix) it
    returns the empty name and an error. *)
Theorem GetTimeseriesCollNameFromBucket_spec (s : string) :
  (forall c, db.GetTimeseriesCollNameFromBucket s = (c, None)
             <-> s = "system.buckets." +:+ c /\ c <> "")
  /\ ((forall c, s = "system.buckets." +:+ c -> c = "") ->
      db.GetTimeseriesCollNameFromBucket s
      = ("", Some (errors_New ("invalid timeseries bucket name: " +:+ s)))).
Proof.
  unfold db.GetTimeseriesCollNameFromBucket, db.TrimPrefix.
  destruct (db.CutPrefix s "system.buckets.") as [rest|] eqn:Hcut.
  - pose proof (proj1 (CutPrefix_Some _ _ _) Hcut) as Hs.
    assert (Hne : String.eqb rest s = false).
    { apply String.eqb_neq. intros ->. symmetry in Hs.
      revert Hs. apply append_longer. discriminate. }
    rewrite Hne. simpl. destruct (String.eqb_spec rest "") as [->|Hrest].
    + split; [|reflexivity]. intros c. split; [discriminate|].
      intros [Hc Hnil]. apply CutPrefix_Some in Hc. congruence.
    + split.
      * intros c. split.
        -- intros [= <-]. auto.
        -- intros [Hc _]. apply CutPrefix_Some in Hc. congruence.
      * intros Hnone. now destruct (Hrest (Hnone rest Hs)).
  - rewrite String.eqb_refl. simpl. split; [|reflexivity].
    intros c. split; [discriminate|]. intros [Hs _].
    apply CutPrefix_Some in Hs. congruence.
Qed.

Lemma GetTimeseriesCollNameFromBucket_spec_witness :
  db.GetTimeseriesCollNameFromBucket "system.buckets.weather" = ("weather", None)
  /\ db.GetTimeseriesCollNameFromBucket "system.buckets."
     = ("", Some (errors_New "invalid timeseries bucket name: system.buckets.")).
Proof.
  split.
  - apply (proj1 (GetTimeseriesCollNameFromBucket_spec "system.buckets.weather")).
    split; [reflexivity|discriminate].
  - apply (proj2 (GetTimeseriesCollNameFromBucket_spec "system.buckets.")).
    intros c Hc. apply CutPrefix_Some in Hc. simpl in Hc. congruence.
Defined.

(** ** Write errors *)

Lemma CanIgnoreError_Some (e : error) :
  db.CanIgnoreError (Some e) = true <-> hasIgnorableCode e.
Proof.
  unfold db.CanIgnoreError, hasIgnorableCode.
  destruct (AsServerError e) as [has|].
  - replace (elements db.ignorableWriteErrorCodes) with [121; 11000]
      by (vm_compute; reflexivity).
    cbn [existsb]. rewrite orb_false_r, orb_true_iff. split.
    + intros H. exists has. tauto.
    + intros (has' & [= <-] & H). tauto.
  - split; [discriminate|]. intros (? & [=] & _).
Qed.

(** C2, as amended: an error whose text is the sentinel
    ["unacknowledged write"] is swallowed without a log line whether or
    not stop-on-error is set; any other error with server code 11000 or
    121 is logged at level [Always] and swallowed when stop-on-error is not
    set, and propagated when it is set; every other non-nil error is
    propagated. *)
Theorem FilterError_spec (stopOnError : bool) (e : error) :
  db.FilterError stopOnError None = (None, [])
  /\ (Error e = "unacknowledged write" ->
      db.FilterError stopOnError (Some e) = (None, []))
  /\ (Error e <> "unacknowledged write" -> hasIgnorableCode e ->
      (stopOnError = false ->
       db.FilterError stopOnError (Some e) = (None, continueLines e))
      /\ (stopOnError = true ->
          db.FilterError stopOnError (Some e) = (Some e, [])))
  /\ (Error e <> "unacknowledged write" -> ~ hasIgnorableCode e ->
      db.FilterError stopOnError (Some e) = (Some e, [])).
Proof.
  unfold db.FilterError, db.ErrUnacknowledgedWrite.
  split; [reflexivity|]. split; [|split].
  - intros ->. reflexivity.
  - intros Hne Hcode. apply String.eqb_neq in Hne. rewrite Hne.
    apply CanIgnoreError_Some in Hcode. rewrite Hcode.
    split; intros ->; cbn; [|reflexivity].
    unfold continueLines, db.continueThroughErrorFormat.
    now destruct (AsBulkWriteException e).
  - intros Hne Hcode. apply String.eqb_neq in Hne. rewrite Hne.
    destruct (db.CanIgnoreError (Some e)) eqn:Hcan.
    + apply CanIgnoreError_Some in Hcan. contradiction.
    + now rewrite andb_false_r.
Qed.

Lemma FilterError_spec_witness :
  db.FilterError false (Some Samples.duplicateKey)
    = (None, [(Always, "continuing through error: E11000 duplicate key error")])
  /\ db.FilterError true (Some Samples.duplicateKey) = (Some Samples.duplicateKey, [])
  /\ db.FilterError true (Some Samples.unacknowledged) = (None, [])
  /\ db.FilterError false (Some (errors_New "connection reset"))
     = (Some (errors_New "connection reset"), []).
Proof.
  assert (Hdup : hasIgnorableCode Samples.duplicateKey).
  { eexists. split; [reflexivity|]. left. reflexivity. }
  assert (Hmsg : Error Samples.duplicateKey <> "unacknowledged write") by discriminate.
  split; [|split; [|split]].
  - exact (proj1 (proj1 (proj2 (proj2 (FilterError_spec false Samples.duplicateKey)))
                   Hmsg Hdup) eq_refl).
  - exact (proj2 (proj1 (proj2 (proj2 (FilterError_spec true Samples.duplicateKey)))
                   Hmsg Hdup) eq_refl).
  - exact (proj1 (proj2 (FilterError_spec true Samples.unacknowledged)) eq_refl).
  - refine (proj2 (proj2 (proj2 (FilterError_spec false (errors_New "connection reset")))) _ _);
      [discriminate|]. intros (has & [=] & _).
Defined.

(** C2, as the spec states it, fails twice: with stop-on-error set, the
    unacknowledged-write error is not propagated, nil is returned; and a
    duplicate-key error that is continued through is logged at level
    [Always], not [Info]. *)
Lemma FilterError_unacknowledged_counterexample :
  db.FilterError true (Some (errors_New "unacknowledged write")) = (None, [])
  /\ ~ (forall (stopOnError : bool) (e : error),
          Error e = "unacknowledged write" -> stopOnError = true ->
          (db.FilterError stopOnError (Some e)).1 <> None)
  /\ db.FilterError false (Some Samples.duplicateKey)
     = (None, [(Always, "continuing through error: E11000 duplicate key error")])
  /\ ~ (forall e : error,
          Error e <> "unacknowledged write" -> hasIgnorableCode e ->
          exists msg, (Info, msg) ∈ (db.FilterError false (Some e)).2).
Proof.
  split; [reflexivity|]. split.
  - intros H. now apply (H true (errors_New "unacknowledged write")).
  - split; [reflexivity|]. intros H.
    destruct (H Samples.duplicateKey) as [msg Hin].
    + discriminate.
    + eexists. split; [reflexivity|]. left. reflexivity.
    + apply list_elem_of_singleton in Hin. discriminate.
Qed.

(** ** Metadata files *)

(** C10: an empty byte slice gives a nil pointer and a nil error; a
    non-empty one gives the error of the extended-JSON unmarshalling when
    that fails (with a nil pointer), and the unmarshalled metadata with a
    nil error otherwise. *)
Theorem MetadataFromJSON_spec (env : Env) :
  MetadataFromJSON env [] = (None, None)
  /\ forall jsonBytes, jsonBytes <> [] ->
       match envUnmarshalExtJSON env jsonBytes true zeroMetadata with
       | inl err => MetadataFromJSON env jsonBytes = (None, Some err)
       | inr meta => MetadataFromJSON env jsonBytes = (Some meta, None)
       end.
Proof.
  split; [reflexivity|]. intros [|b bs] Hne; [congruence|].
  unfold MetadataFromJSON. cbn [List.length Nat.eqb].
  now destruct (envUnmarshalExtJSON env (b :: bs) true _).
Qed.

Lemma MetadataFromJSON_spec_witness :
  MetadataFromJSON Samples.quietEnv [Byte.x7b; Byte.x7d] = (Some zeroMetadata, None)
  /\ MetadataFromJSON Samples.legacyEnv [Byte.x7b]
     = (None, Some (errors_New "invalid JSON input")).
Proof.
  split.
  - exact (proj2 (MetadataFromJSON_spec Samples.quietEnv) [Byte.x7b; Byte.x7d]
                 ltac:(discriminate)).
  - exact (proj2 (MetadataFromJSON_spec Samples.legacyEnv) [Byte.x7b]
                 ltac:(discriminate)).
Defined.

(** ** Auth versions *)

Lemma version_cases (v : Z) :
  v = 1 \/ v = 2 \/ v = 3 \/ v = 4 \/ v = 5
  \/ (v <> 1 /\ v <> 2 /\ v <> 3 /\ v <> 4 /\ v <> 5).
Proof. lia. Qed.

Ltac eqb_false :=
  repeat match goal with
         | H : ?v <> ?k |- context [?v =? ?k] =>
             rewrite (proj2 (Z.eqb_neq v k) H)
         end.

(** C4: [ValidateAuthVersions] returns an error exactly when the dump or
    the server auth version is 2 or 4, or the pair (dump, server) is
    (5,3), (1,5), (5,1) or (3,1), or the pair is none of those the code
    names; it returns nil exactly for (3,5), (5,5), (3,3), (1,1) and
    (1,3); and it performs no operation. *)
Theorem ValidateAuthVersions_spec (restore : MongoRestore) (w : world) :
  let d := Dump (authVersions restore) in
  let s := Server (authVersions restore) in
  let r := ValidateAuthVersions restore w in
  ((exists e, r.1 = inl e) <->
     d = 2 \/ d = 4 \/ s = 2 \/ s = 4
     \/ (d = 5 /\ s = 3) \/ (d = 1 /\ s = 5) \/ (d = 5 /\ s = 1) \/ (d = 3 /\ s = 1)
     \/ ~ recognizedPair d s)
  /\ (r.1 = inr tt <->
        (d = 3 /\ s = 5) \/ (d = 5 /\ s = 5) \/ (d = 3 /\ s = 3)
        \/ (d = 1 /\ s = 1) \/ (d = 1 /\ s = 3))
  /\ ops r.2 = ops w
  /\ knownCollections r.2 = knownCollections w.
Proof.
  destruct restore as [oo to sv [d s]]. cbn [authVersions Dump Server].
  unfold ValidateAuthVersions, isPair, recognizedPair. cbn [authVersions Dump Server].
  destruct (version_cases d) as [->|[->|[->|[->|[->|(?&?&?&?&?)]]]]];
  destruct (version_cases s) as [->|[->|[->|[->|[->|(?&?&?&?&?)]]]]];
  eqb_false; cbn;
  (split; [split; [intros [e0 He0]; first [discriminate He0 | lia]
                  | intros Hcase; first [eexists; reflexivity | exfalso; lia]]|]);
  (split; [split; [intros He0; first [discriminate He0 | lia]
                  | intros Hcase; first [reflexivity | exfalso; lia]]|]);
  auto.
Qed.

(** ** Collection options *)

Lemma UpdateAutoIndexId_from_run (restore : MongoRestore) (n i : nat)
    (options : D) (w : world) :
  (i + n = List.length options)%nat ->
  exists w',
    UpdateAutoIndexId_from restore n i options w
    = (inr (take i options ++ map (rewriteElem restore) (drop i options))%list, w')
    /\ ops w' = ops w /\ knownCollections w' = knownCollections w
    /\ deferred w' = deferred w.
Proof.
  revert i options w. induction n as [|n IH]; intros i options w Hlen.
  - exists w. cbn. rewrite Nat.add_0_r in Hlen. subst i.
    rewrite drop_all, firstn_all. now rewrite app_nil_r.
  - cbn [UpdateAutoIndexId_from].
    destruct (options !! i) as [elem|] eqn:Hi.
    2:{ apply lookup_ge_None in Hi. lia. }
    rewrite (drop_S _ _ _ Hi). cbn [map]. unfold rewriteElem at 1.
    destruct (_ && _ && _) eqn:Hc.
    + unfold mbind, M_bind, Logv.
      match goal with |- context [UpdateAutoIndexId_from restore n (S i) ?o ?w1] =>
        destruct (IH (S i) o w1) as (w' & Hrun & Hops & Hk & Hd)
      end.
      { rewrite length_insert. lia. }
      exists w'. rewrite Hrun. split; [|auto].
      f_equal. f_equal.
      rewrite drop_insert_lt by lia.
      assert (Hlt : (i < List.length options)%nat) by (eapply lookup_lt_Some; eauto).
      rewrite (take_S_r _ _ (elem.1, VBool true)) by (now apply list_lookup_insert_eq).
      rewrite take_insert_ge by lia. now rewrite <- app_assoc.
    + destruct (IH (S i) options w) as (w' & Hrun & Hrest); [lia|].
      exists w'. rewrite Hrun. split; [|auto]. f_equal. f_equal.
      rewrite (take_S_r _ _ _ Hi). now rewrite <- app_assoc.
Qed.

Lemma UpdateAutoIndexId_run (restore : MongoRestore) (options : D) (w : world) :
  exists w',
    UpdateAutoIndexId restore options w
    = (inr (if db.GTE (serverVersion restore) (4, 0, 0)
            then map (rewriteElem restore) options else options), w')
    /\ ops w' = ops w.
Proof.
  unfold UpdateAutoIndexId. destruct (db.GTE _ _).
  - destruct (UpdateAutoIndexId_from_run restore (List.length options) 0 options w)
      as (w' & Hrun & Hops & _); [reflexivity|].
    exists w'. now rewrite Hrun, drop_0.
  - now exists w.
Qed.

(** ** Running computations *)

Lemma new_ops_app (w w' : world) (added : list op) :
  ops w' = (ops w ++ added)%list -> new_ops w w' = added.
Proof. intros H. unfold new_ops. rewrite H. apply drop_app_length. Qed.

Ltac run_M :=
  repeat (progress (unfold mbind, M_bind, mret, M_ret, wrapErr, fail, attempt, Logv,
                    perform, defer, GetSession, InsertOne, RunCommand,
                    DropCollectionOp, LegacyInsertIndex, BSONFileOpen,
                    RestoreCollectionToDB, ListCollections, Errorf;
                    cbn [fst snd ops logs knownCollections deferred add_op add_log
                         set_knownCollections set_deferred])).

Section Emits.

Context (P : op -> Prop).

Lemma emits_ret {A} (Q : A -> Prop) (a : A) : Q a -> emits P Q (mret a).
Proof.
  intros HQ w. exists []. cbn. rewrite app_nil_r.
  repeat split; [constructor|]. now intros ? [= <-].
Qed.

Lemma emits_fail {A} (Q : A -> Prop) (e : error) : emits P Q (fail e).
Proof.
  intros w. exists []. cbn. rewrite app_nil_r. repeat split; [constructor|discriminate].
Qed.

Lemma emits_bind {A B} (Q : A -> Prop) (R : B -> Prop) (m : M A) (f : A -> M B) :
  emits P Q m -> (forall a, Q a -> emits P R (f a)) -> emits P R (m ≫= f).
Proof.
  intros Hm Hf w. destruct (Hm w) as (added & Hops & HP & HQ).
  unfold mbind, M_bind. destruct (m w) as [[e|a] w1]; cbn [fst snd] in *.
  - exists added. repeat split; [assumption..|discriminate].
  - destruct (Hf a (HQ a eq_refl) w1) as (added' & Hops' & HP' & HR).
    exists (added ++ added')%list. rewrite Hops', Hops, app_assoc.
    repeat split; [|assumption]. now apply Forall_app.
Qed.

Lemma emits_seq {A B} (R : B -> Prop) (m : M A) (f : A -> M B) :
  emits P (fun _ => True) m -> (forall a, emits P R (f a)) -> emits P R (m ≫= f).
Proof. intros Hm Hf. apply (emits_bind (fun _ => True)); auto. Qed.


Lemma emits_wrapErr {A} (Q : A -> Prop) (f : error -> error) (m : M A) :
  emits P Q m -> emits P Q (wrapErr f m).
Proof.
  intros Hm w. destruct (Hm w) as (added & Hops & HP & HQ).
  unfold wrapErr. destruct (m w) as [[e|a] w1]; cbn [fst snd] in *;
    exists added; repeat split; auto; discriminate.
Qed.

Lemma emits_attempt {A} (m : M A) :
  emits P (fun _ => True) m -> emits P (fun _ => True) (attempt m).
Proof.
  intros Hm w. destruct (Hm w) as (added & Hops & HP & _).
  unfold attempt. destruct (m w) as [r w1]; cbn [fst snd] in *.
  exists added. repeat split; auto.
Qed.

Lemma emits_silent {A} (m : M A) :
  (forall w, ops (m w).2 = ops w) -> emits P (fun _ => True) m.
Proof.
  intros Hm w. exists []. rewrite Hm, app_nil_r. repeat split. constructor.
Qed.

Lemma emits_Logv (lvl : Level) (msg : string) :
  emits P (fun _ => True) (Logv lvl msg).
Proof. now apply emits_silent. Qed.

Lemma emits_defer (d : deferredCall) : emits P (fun _ => True) (defer d).
Proof. now apply emits_silent. Qed.

Lemma emits_perform (o : op) (answer : list op -> option error) :
  P o -> emits P (fun _ => True) (perform o answer).
Proof.
  intros Ho w. exists [o]. unfold perform.
  destruct (answer (ops w)); cbn; repeat split; now repeat constructor.
Qed.

End Emits.

Ltac emits_step :=
  lazymatch goal with
  | |- emits _ _ (Logv _ _) => apply emits_Logv
  | |- emits _ _ (defer _) => apply emits_defer
  | |- emits _ _ (fail _) => apply emits_fail
  | |- emits _ _ (mret _) => apply emits_ret; exact I
  | |- emits _ _ (wrapErr _ _) => apply emits_wrapErr
  | |- emits _ _ (attempt _) => apply emits_attempt
  | |- emits _ _ (perform _ _) => apply emits_perform; auto
  | |- emits _ _ (mbind _ _) => apply emits_seq; [|intros ?]
  | |- emits _ _ (if ?b then _ else _) => destruct b
  | |- emits _ _ (match ?x with _ => _ end) => destruct x
  end.

(** ** Collection creation *)






(** ** Index creation *)

Lemma lookup_Map (k : string) (entries : gmap string value) :
  Map entries !! k = entries !! k.
Proof. reflexivity. Qed.

Lemma lookup_entriesOf (m : bsonM) (k : string) : entriesOf m !! k = m !! k.
Proof. destruct m; [apply lookup_empty|reflexivity]. Qed.

Lemma nil_or_allocated (m : bsonM) : m = NilMap \/ m <> NilMap.
Proof. destruct m; [now left|now right]. Qed.

Lemma indexOk_allocated (restore : MongoRestore) (dbName collectionName : string)
    (index : IndexDocument) :
  indexOk restore dbName collectionName index -> Options index <> NilMap.
Proof.
  intros [_ [nameStr Hname]] Hnil. unfold option_of in Hname.
  rewrite Hnil in Hname. discriminate.
Qed.

(** The assignment of [ns] to a document whose map is allocated. *)
Lemma set_option_ns (restore : MongoRestore) (dbName collectionName : string)
    (index : IndexDocument) :
  Options index <> NilMap ->
  exists index',
    set_option "ns" (VString (dbName +:+ "." +:+ collectionName)) index = Some index'
    /\ fullIndexName index' = qualifiedName dbName collectionName index
    /\ option_of index' "name" = option_of index "name"
    /\ (if negb (KeepIndexVersion (OutputOptions restore))
        then delete_option "v" index' else index')
       = prepared restore dbName collectionName index.
Proof.
  intros Hallocated. unfold set_option, prepared.
  destruct (Options index) as [|entries] eqn:Hoptions; [congruence|].
  eexists. split; [reflexivity|].
  unfold fullIndexName, qualifiedName, option_of, delete_option.
  cbn [Options Key PartialFilterExpression entriesOf]. rewrite Hoptions, !lookup_Map.
  rewrite lookup_insert_eq, lookup_insert_ne by discriminate.
  repeat split. now destruct (KeepIndexVersion _).
Qed.

Lemma prefix_of_legacyOps_no_command (dbName : string) (indexes : list IndexDocument)
    (tail : list op) (d : string) (cmd : command) :
  tail `prefix_of` legacyOps dbName indexes -> OpRunCommand d cmd ∉ tail.
Proof.
  intros [rest Hrest] Hin.
  assert (Hin' : OpRunCommand d cmd ∈ legacyOps dbName indexes).
  { rewrite Hrest. apply elem_of_app. now left. }
  unfold legacyOps in Hin'. apply list_elem_of_In, in_flat_map in Hin'.
  destruct Hin' as (idx & _ & [H|[H|[]]]); discriminate.
Qed.

Section CreateIndexes.

Context (env : Env) (restore : MongoRestore) (dbName collectionName : string).


Lemma sanitizeIndexes_Sanitized (indexes sent : list IndexDocument)
    (indexNames : list string) :
  sanitizeIndexes restore dbName collectionName indexes = Sanitized sent indexNames ->
  sent = map (prepared restore dbName collectionName) indexes.
Proof.
  revert sent indexNames. induction indexes as [|index rest IH]; intros sent names.
  - now intros [= <- <-].
  - cbn [sanitizeIndexes map].
    destruct (nil_or_allocated (Options index)) as [Hnil|Hallocated].
    { unfold set_option. rewrite Hnil. discriminate. }
    destruct (set_option_ns restore dbName collectionName index Hallocated)
      as (index' & Hset & Hfull & Hname' & Hprepared).
    rewrite Hset, Hfull, Hname', Hprepared.
    destruct (_ && _); [discriminate|].
    destruct (option_of index "name"); try discriminate.
    destruct (sanitizeIndexes restore dbName collectionName rest)
      as [reason|e|rest' names']; try discriminate.
    intros [= <- <-]. now rewrite (IH _ _ eq_refl).
Qed.


(** Documents that pass the checks do not change how the loop stops at a
    later one. *)
Lemma sanitizeIndexes_stops (before rest : list IndexDocument) :
  Forall (indexOk restore dbName collectionName) before ->
  (forall sent indexNames,
      sanitizeIndexes restore dbName collectionName rest <> Sanitized sent indexNames) ->
  sanitizeIndexes restore dbName collectionName (before ++ rest)
  = sanitizeIndexes restore dbName collectionName rest.
Proof.
  intros Hbefore Hstops. induction Hbefore as [|index before Hok _ IH]; [reflexivity|].
  destruct (set_option_ns restore dbName collectionName index
              (indexOk_allocated _ _ _ _ Hok))
    as (index' & Hset & Hfull & Hname' & Hprepared).
  destruct Hok as [Hlen [nameStr Hname]].
  cbn [app sanitizeIndexes]. rewrite Hset, Hfull, Hname', Hname, IH.
  assert (Hcheck : db.LT (serverVersion restore) (4, 2, 0)
                   && (127 <? String.length (qualifiedName dbName collectionName index))%nat
                   = false).
  { destruct (db.LT _ _); [|reflexivity]. cbn [andb]. apply Nat.ltb_ge. auto. }
  rewrite Hcheck.
  destruct (sanitizeIndexes restore dbName collectionName rest)
    as [reason|e|sent names] eqn:Hrest; try reflexivity.
  now destruct (Hstops sent names).
Qed.

Lemma legacyInsertAll_ops (indexes : list IndexDocument) (w : world) :
  exists tail,
    ops (legacyInsertAll env dbName indexes w).2 = (ops w ++ tail)%list
    /\ tail `prefix_of` legacyOps dbName indexes
    /\ ((legacyInsertAll env dbName indexes w).1 = inr tt ->
        tail = legacyOps dbName indexes).
Proof.
  revert w. induction indexes as [|idx rest IH]; intros w.
  - exists []. cbn. rewrite app_nil_r. repeat split. apply prefix_nil.
  - cbn [legacyInsertAll legacyOps flat_map].
    run_M. destruct (envGetSession env (ops w)) as [e|]; run_M.
    + exists [OpGetSession]. split; [reflexivity|]. split; [|discriminate].
      now apply prefix_cons, prefix_nil.
    + destruct (envInsertOne env _ dbName "system.indexes" idx) as [e|]; run_M.
      * eexists [OpGetSession; OpInsertOne _ _ _]. rewrite <- app_assoc.
        split; [reflexivity|]. split; [|discriminate].
        now apply prefix_cons, prefix_cons, prefix_nil.
      * match goal with |- context [legacyInsertAll env dbName rest ?w1] =>
          destruct (IH w1) as (tail & Hops & Hpre & Hall) end.
        exists (OpGetSession :: OpInsertOne dbName "system.indexes" idx :: tail).
        rewrite Hops. cbn. rewrite <- !app_assoc. split; [reflexivity|]. split.
        -- now apply prefix_cons, prefix_cons.
        -- intros Hr. now rewrite (Hall Hr).
Qed.

Lemma legacyInsertAll_succeeds (indexes : list IndexDocument) (w : world) :
  (forall h, envGetSession env h = None) ->
  (forall h idx, envInsertOne env h dbName "system.indexes" idx = None) ->
  (legacyInsertAll env dbName indexes w).1 = inr tt.
Proof.
  intros Hs Hi. revert w. induction indexes as [|idx rest IH]; intros w; [reflexivity|].
  cbn [legacyInsertAll].
  run_M. rewrite Hs. run_M. rewrite Hi. apply IH.
Qed.

(** Every run of [CreateIndexes]: what it returns and adds. *)
Lemma CreateIndexes_run (indexes : list IndexDocument) (w : world) :
  let r := CreateIndexes env restore dbName collectionName indexes w in
  match sanitizeIndexes restore dbName collectionName indexes with
  | Panics reason => r = (inl (errors_New reason), add_op (OpPanic reason) w)
  | Fails e => r = (inl e, w)
  | Sanitized sent _ =>
      match envGetSession env (ops w) with
      | Some e => new_ops w r.2 = [OpGetSession] /\ exists e', r.1 = inl e'
      | None =>
          let cmd := createIndexesCommand restore collectionName sent in
          exists tail,
            new_ops w r.2 = OpGetSession :: OpRunCommand dbName cmd :: tail
            /\ match Err (envRunCommand env (ops w ++ [OpGetSession]) dbName cmd) with
               | None => r.1 = inr tt /\ tail = []
               | Some err =>
                   if String.eqb (Error err) "no such cmd: createIndexes"
                   then tail `prefix_of` legacyOps dbName sent
                        /\ (r.1 = inr tt -> tail = legacyOps dbName sent)
                        /\ ((forall h, envGetSession env h = None) ->
                            (forall h idx,
                                envInsertOne env h dbName "system.indexes" idx = None) ->
                            r.1 = inr tt)
                   else r.1 = inl (Errorf "createIndex error: " err) /\ tail = []
               end
      end
  end.
Proof.
  unfold CreateIndexes.
  destruct (sanitizeIndexes restore dbName collectionName indexes)
    as [reason|e|sent names]; [reflexivity..|].
  cbv zeta. run_M. destruct (envGetSession env (ops w)) as [e|]; run_M.
  - split; [now apply new_ops_app|eauto].
  - destruct (Err (envRunCommand env _ dbName _)) as [err|] eqn:Herr; run_M.
    + destruct (String.eqb (Error err) "no such cmd: createIndexes") eqn:Hmsg; cbn [negb].
      * match goal with |- context [legacyInsertAll env dbName sent ?w1] =>
          destruct (legacyInsertAll_ops sent w1) as (tail & Hops & Hpre & Hall);
          pose proof (legacyInsertAll_succeeds sent w1) as Hsucc
        end.
        exists tail. split; [|auto].
        apply new_ops_app. rewrite Hops. cbn. now rewrite <- !app_assoc.
      * exists []. split; [|auto]. apply new_ops_app. cbn. now rewrite <- app_assoc.
    + exists []. split; [|auto]. apply new_ops_app. cbn. now rewrite <- app_assoc.
Qed.

End CreateIndexes.


(** C7: the index documents [CreateIndexes] sends, in its command or in
    the legacy insertions, are the ones it was given, each with [v]
    removed from its options, or with [v] as it was when the index version
    is to be kept; their other options, [ns] apart, and their keys are
    unchanged. *)
Theorem CreateIndexes_index_version (env : Env) (restore : MongoRestore)
    (dbName collectionName : string) (indexes : list IndexDocument) (w : world) :
  let r := CreateIndexes env restore dbName collectionName indexes w in
  exists sent,
    List.length sent = List.length indexes
    /\ (forall i index, indexes !! i = Some index ->
        exists index', sent !! i = Some index'
          /\ Options index' !! "v"
             = (if KeepIndexVersion (OutputOptions restore)
                then Options index !! "v" else None)
          /\ (forall k, k <> "v" -> k <> "ns" ->
              Options index' !! k = Options index !! k)
          /\ Key index' = Key index)
    /\ (forall d cmd, OpRunCommand d cmd ∈ new_ops w r.2 ->
        d = dbName /\ field "indexes" cmd = Some (CIndexes sent))
    /\ (forall d c doc, OpInsertOne d c doc ∈ new_ops w r.2 -> doc ∈ sent).
Proof.
  cbv zeta. exists (map (prepared restore dbName collectionName) indexes).
  split; [apply length_map|]. split.
  { intros i index Hi. exists (prepared restore dbName collectionName index).
    rewrite list_lookup_fmap, Hi. split; [reflexivity|].
    unfold prepared. cbn [Options Key].
    destruct (KeepIndexVersion _); rewrite lookup_Map.
    - split; [now rewrite lookup_insert_ne, lookup_entriesOf by discriminate|].
      split; [|reflexivity]. intros k _ Hns.
      now rewrite lookup_Map, lookup_insert_ne, lookup_entriesOf.
    - split; [now rewrite lookup_delete_eq|]. split; [|reflexivity].
      intros k Hv Hns.
      now rewrite lookup_Map, lookup_delete_ne, lookup_insert_ne, lookup_entriesOf. }
  pose proof (CreateIndexes_run env restore dbName collectionName indexes w) as Hrun.
  cbv zeta in Hrun.
  destruct (sanitizeIndexes restore dbName collectionName indexes)
    as [reason|e|sent names] eqn:Hs.
  { rewrite Hrun. cbn [snd].
    rewrite (new_ops_app w (add_op (OpPanic reason) w) [OpPanic reason] eq_refl). split.
    - intros d cmd Hin%list_elem_of_singleton. discriminate.
    - intros d c doc Hin%list_elem_of_singleton. discriminate. }
  { rewrite Hrun. unfold new_ops. rewrite drop_all.
    split; intros; exfalso; eapply not_elem_of_nil; eauto. }
  apply sanitizeIndexes_Sanitized in Hs. subst sent.
  destruct (envGetSession env (ops w)).
  { destruct Hrun as [-> _]. split.
    - intros d cmd Hin%list_elem_of_singleton. discriminate.
    - intros d c doc Hin%list_elem_of_singleton. discriminate. }
  destruct Hrun as (tail & -> & Htail).
  assert (Hpre : tail `prefix_of`
                 legacyOps dbName (map (prepared restore dbName collectionName) indexes)).
  { destruct (Err _) as [err|].
    - destruct (String.eqb _ _); [tauto|]. destruct Htail as [_ ->]. apply prefix_nil.
    - destruct Htail as [_ ->]. apply prefix_nil. }
  split.
  - intros d cmd Hin. apply elem_of_cons in Hin as [Hin|Hin]; [discriminate|].
    apply elem_of_cons in Hin as [Hin|Hin].
    + injection Hin as -> ->. split; [reflexivity|].
      unfold createIndexesCommand. now destruct (db.GTE _ _).
    + exfalso. eapply prefix_of_legacyOps_no_command; eauto.
  - intros d c doc Hin. apply elem_of_cons in Hin as [Hin|Hin]; [discriminate|].
    apply elem_of_cons in Hin as [Hin|Hin]; [discriminate|].
    destruct Hpre as [rest Hrest].
    assert (Hin' : OpInsertOne d c doc
                   ∈ legacyOps dbName (map (prepared restore dbName collectionName) indexes)).
    { rewrite Hrest. apply elem_of_app. now left. }
    unfold legacyOps in Hin'. apply list_elem_of_In, in_flat_map in Hin'.
    destruct Hin' as (idx & Hidx & [H|[H|[]]]); [discriminate|].
    injection H as _ _ ->. now apply list_elem_of_In.
Qed.



Lemma CreateIndexes_index_version_witness :
  let restore := Samples.restoreAt (7, 0, 0) "shop" false in
  let r := CreateIndexes Samples.quietEnv restore "shop" "items"
             [Samples.index_a] Samples.emptyWorld in
  Options Samples.index_a !! "v" = Some (VInt32 2)
  /\ exists cmd sent index',
       OpRunCommand "shop" cmd ∈ new_ops Samples.emptyWorld r.2
       /\ field "indexes" cmd = Some (CIndexes sent)
       /\ sent !! 0%nat = Some index'
       /\ Options index' !! "v" = None
       /\ Options index' !! "name" = Some (VString "a_1").
Proof.
  cbv zeta. split; [vm_compute; reflexivity|].
  destruct (CreateIndexes_index_version Samples.quietEnv
              (Samples.restoreAt (7, 0, 0) "shop" false) "shop" "items"
              [Samples.index_a] Samples.emptyWorld)
    as (sent & _ & Hdocs & Hcmd & _).
  destruct (Hdocs 0%nat Samples.index_a eq_refl) as (index' & Hi & Hv & Hother & _).
  set (cmd := createIndexesCommand (Samples.restoreAt (7, 0, 0) "shop" false) "items"
                [prepared (Samples.restoreAt (7, 0, 0) "shop" false)
                   "shop" "items" Samples.index_a]).
  assert (Hin : OpRunCommand "shop" cmd
                ∈ new_ops Samples.emptyWorld
                    (CreateIndexes Samples.quietEnv
                       (Samples.restoreAt (7, 0, 0) "shop" false) "shop" "items"
                       [Samples.index_a] Samples.emptyWorld).2).
  { apply list_elem_of_In. right. left. vm_compute. reflexivity. }
  exists cmd, sent, index'. split; [exact Hin|].
  split; [exact (proj2 (Hcmd "shop" cmd Hin))|]. split; [exact Hi|].
  split; [exact Hv|].
  rewrite (Hother "name") by discriminate. vm_compute. reflexivity.
Defined.

(** ** Users and roles *)



Section UsersOrRoles.

Context (env : Env) (P : op -> Prop).
Hypothesis P_other : forall o, (forall d cmd, o <> OpRunCommand d cmd) -> P o.

Local Hint Extern 1 (P _) => (apply P_other; discriminate) : core.


Lemma emits_cacheNames (dbName : string) (collections : list RawName) :
  emits P (fun _ => True) (cacheNames dbName collections).
Proof.
  induction collections as [|[colName|r] rest IH]; cbn [cacheNames];
    repeat emits_step; try assumption.
  now apply emits_silent.
Qed.






End UsersOrRoles.

Section MergeCommand.

Context (env : Env) (restore : MongoRestore).




End MergeCommand.



(** C9: with both intents nil, [RestoreUsersOrRoles] returns nil and
    leaves the world as it was; with two intents naming different
    databases it returns an error and leaves the world as it was. *)
Theorem RestoreUsersOrRoles_guards (env : Env) (restore : MongoRestore) (w : world) :
  RestoreUsersOrRoles env restore None None w = (inr tt, w)
  /\ forall users roles, DB users <> DB roles ->
       RestoreUsersOrRoles env restore (Some users) (Some roles) w
       = (inl (errors_New ("can't restore users and roles to different databases, "
                             +:+ DB users +:+ " and " +:+ DB roles)), w).
Proof.
  destruct w as [o l k d]. split; [reflexivity|].
  intros users roles Hne. apply String.eqb_neq in Hne.
  unfold RestoreUsersOrRoles, withDeferred, RestoreUsersOrRoles_body.
  run_M. now rewrite Hne.
Qed.

Lemma RestoreUsersOrRoles_guards_witness :
  RestoreUsersOrRoles Samples.quietEnv (Samples.restoreAt (7, 0, 0) "" false)
    (Some Samples.emptyUsers) (Some Samples.someRoles) Samples.emptyWorld
  = (inl (errors_New "can't restore users and roles to different databases, admin and shop"),
     Samples.emptyWorld).
Proof.
  apply (proj2 (RestoreUsersOrRoles_guards Samples.quietEnv
                  (Samples.restoreAt (7, 0, 0) "" false) Samples.emptyWorld)
               Samples.emptyUsers Samples.someRoles).
  discriminate.
Defined.

(** *** The size of an intent *)

Section Alike.

Lemma alike_ret {A} (a : A) : alike (mret a) (mret a).
Proof. intros w1 w2 H. now split. Qed.

Lemma alike_fail {A} (e : error) : alike (@fail A e) (fail e).
Proof. intros w1 w2 H. now split. Qed.

Lemma alike_bind {A B} (m1 m2 : M A) (f1 f2 : A -> M B) :
  alike m1 m2 -> (forall a, alike (f1 a) (f2 a)) -> alike (m1 ≫= f1) (m2 ≫= f2).
Proof.
  intros Hm Hf w1 w2 Hw. destruct (Hm w1 w2 Hw) as [Hr Hw'].
  unfold mbind, M_bind.
  destruct (m1 w1) as [r1 w1'], (m2 w2) as [r2 w2']; cbn [fst snd] in *. subst r2.
  destruct r1 as [e|a]; [now split|]. now apply Hf.
Qed.

Lemma alike_wrapErr {A} (f : error -> error) (m1 m2 : M A) :
  alike m1 m2 -> alike (wrapErr f m1) (wrapErr f m2).
Proof.
  intros Hm w1 w2 Hw. destruct (Hm w1 w2 Hw) as [Hr Hw']. unfold wrapErr.
  destruct (m1 w1) as [r1 w1'], (m2 w2) as [r2 w2']; cbn [fst snd] in *. subst r2.
  now destruct r1.
Qed.

Lemma alike_attempt {A} (m1 m2 : M A) :
  alike m1 m2 -> alike (attempt m1) (attempt m2).
Proof.
  intros Hm w1 w2 Hw. destruct (Hm w1 w2 Hw) as [Hr Hw']. unfold attempt.
  destruct (m1 w1) as [r1 w1'], (m2 w2) as [r2 w2']; cbn [fst snd] in *. now subst r2.
Qed.

Lemma alike_logging (m1 m2 : M unit) :
  (forall w, exists l, m1 w = (inr tt, {| ops := ops w; logs := l;
       knownCollections := knownCollections w; deferred := deferred w |})) ->
  (forall w, exists l, m2 w = (inr tt, {| ops := ops w; logs := l;
       knownCollections := knownCollections w; deferred := deferred w |})) ->
  alike m1 m2.
Proof.
  intros H1 H2 w1 w2 Hw. destruct (H1 w1) as [l1 ->], (H2 w2) as [l2 ->]. now split.
Qed.

Lemma logging_Logv (lvl : Level) (msg : string) (w : world) :
  exists l, Logv lvl msg w = (inr tt, {| ops := ops w; logs := l;
       knownCollections := knownCollections w; deferred := deferred w |}).
Proof. now eexists. Qed.

Lemma logging_ret (w : world) :
  exists l, (mret tt : M unit) w = (inr tt, {| ops := ops w; logs := l;
       knownCollections := knownCollections w; deferred := deferred w |}).
Proof. exists (logs w). now destruct w. Qed.

Lemma alike_Logv (lvl1 lvl2 : Level) (msg1 msg2 : string) :
  alike (Logv lvl1 msg1) (Logv lvl2 msg2).
Proof. apply alike_logging; intros; apply logging_Logv. Qed.

Lemma alike_defer (d : deferredCall) : alike (defer d) (defer d).
Proof.
  intros w1 w2 (Ho & Hk & Hd). unfold defer, same_but_logs. cbn. now rewrite Hd.
Qed.

Lemma alike_perform (o : op) (answer : list op -> option error) :
  alike (perform o answer) (perform o answer).
Proof.
  intros w1 w2 (Ho & Hk & Hd). unfold perform, same_but_logs. rewrite Ho.
  destruct (answer (ops w2)); cbn; now rewrite Ho.
Qed.

End Alike.

Ltac alike_step :=
  lazymatch goal with
  | |- alike (Logv _ _) (Logv _ _) => apply alike_Logv
  | |- alike (defer _) (defer _) => apply alike_defer
  | |- alike (fail _) (fail _) => apply alike_fail
  | |- alike (mret _) (mret _) => apply alike_ret
  | |- alike (wrapErr _ _) (wrapErr _ _) => apply alike_wrapErr
  | |- alike (attempt _) (attempt _) => apply alike_attempt
  | |- alike (perform _ _) (perform _ _) => apply alike_perform
  | |- alike (mbind _ _) (mbind _ _) => apply alike_bind; [|intros ?]
  | |- alike (if ?b then _ else _) (if ?b then _ else _) => destruct b
  | |- alike (match ?x with _ => _ end) (match ?x with _ => _ end) => destruct x
  end.

Section SizeIgnored.

Context (env : Env) (restore : MongoRestore).

Lemma alike_GetSession : alike (GetSession env) (GetSession env).
Proof. unfold GetSession. repeat alike_step. Qed.

Lemma alike_known (dbName : string) : alike (known dbName) (known dbName).
Proof. intros w1 w2 (Ho & Hk & Hd). unfold known. cbn. now rewrite Hk. Qed.

Lemma alike_cacheNames (dbName : string) (collections : list RawName) :
  alike (cacheNames dbName collections) (cacheNames dbName collections).
Proof.
  induction collections as [|[colName|r] rest IH]; cbn [cacheNames];
    repeat alike_step; try assumption.
  intros w1 w2 (Ho & Hk & Hd). unfold appendKnown, same_but_logs. cbn.
  now rewrite Hk.
Qed.

Lemma alike_CollectionExists (dbName coll : string) :
  alike (CollectionExists env dbName coll) (CollectionExists env dbName coll).
Proof.
  unfold CollectionExists. apply alike_bind; [apply alike_known|]. intros cached.
  apply alike_bind.
  - destruct cached; [|repeat alike_step].
    apply alike_bind; [apply alike_wrapErr, alike_GetSession|]. intros _.
    apply alike_bind; [|intros; apply alike_cacheNames].
    intros w1 w2 (Ho & Hk & Hd). unfold ListCollections, same_but_logs. rewrite Ho.
    destruct (envListCollections env (ops w2) dbName); cbn; now rewrite Ho.
  - intros _. apply alike_bind; [apply alike_known|]. intros. repeat alike_step.
Qed.

Lemma alike_restoreArg (n : Z) (arg : loopArg) (mergeArgs : command) :
  alike (restoreArg env (resizeArg n arg) mergeArgs) (restoreArg env arg mergeArgs).
Proof.
  unfold restoreArg. cbn [resizeArg resize intent intentType mergeParamName
                          tempCollectionName Size Location DB].
  apply alike_bind.
  { apply alike_logging; intros w;
      match goal with |- context [if ?b then _ else _] => destruct b end;
      first [apply logging_Logv | apply logging_ret]. }
  intros _.
  apply alike_bind; [repeat alike_step|]. intros _.
  apply alike_bind; [unfold BSONFileOpen; repeat alike_step|]. intros _.
  apply alike_bind; [repeat alike_step|]. intros _.
  apply alike_bind; [repeat alike_step|]. intros _.
  apply alike_bind; [apply alike_CollectionExists|]. intros tempCollectionNameExists.
  apply alike_bind.
  { destruct tempCollectionNameExists; [|repeat alike_step].
    unfold DropCollectionOp. repeat alike_step. }
  intros _.
  apply alike_bind; [repeat alike_step|]. intros _.
  apply alike_bind; [unfold RestoreCollectionToDB; repeat alike_step|]. intros _.
  repeat alike_step.
Qed.

Lemma alike_restoreArgs (sizes : list Z) (args : list loopArg) (mergeArgs : command)
    (userTargetDB : string) :
  List.length sizes = List.length args ->
  alike (restoreArgs env (zip_with resizeArg sizes args) mergeArgs userTargetDB)
        (restoreArgs env args mergeArgs userTargetDB).
Proof.
  revert sizes mergeArgs userTargetDB. induction args as [|arg args IH];
    intros [|n sizes] mergeArgs userTargetDB Hlen; try discriminate;
    cbn [zip_with restoreArgs].
  - apply alike_ret.
  - apply alike_bind; [apply alike_restoreArg|]. intros [mergeArgs' userTargetDB'].
    apply IH. now injection Hlen.
Qed.

Lemma alike_runAllDeferred (ds : list deferredCall) (w1 w2 : world) :
  same_but_logs w1 w2 ->
  same_but_logs (runAllDeferred env ds w1) (runAllDeferred env ds w2).
Proof.
  revert w1 w2. induction ds as [|d ds IH]; intros w1 w2 Hw; cbn [runAllDeferred];
    [assumption|].
  apply IH.
  assert (Hd : alike (runDeferred env d) (runDeferred env d)).
  { destruct d; cbn [runDeferred]; [repeat alike_step..|].
    unfold dropTemp. apply alike_bind; [apply alike_attempt, alike_GetSession|].
    intros [e|[]]; [repeat alike_step|].
    unfold DropCollectionOp. repeat alike_step. }
  apply (Hd w1 w2 Hw).
Qed.

Lemma alike_withDeferred {A} (body1 body2 : M A) :
  alike body1 body2 -> alike (withDeferred env body1) (withDeferred env body2).
Proof.
  intros Hbody w1 w2 Hw. unfold withDeferred.
  assert (Hw0 : same_but_logs (set_deferred [] w1) (set_deferred [] w2)).
  { destruct Hw as (Ho & Hk & Hd). now repeat split. }
  destruct (Hbody _ _ Hw0) as [Hr Hw'].
  destruct (body1 (set_deferred [] w1)) as [r1 w1'],
           (body2 (set_deferred [] w2)) as [r2 w2']; cbn [fst snd] in *.
  split; [assumption|].
  assert (Hd : deferred w1' = deferred w2') by apply Hw'. rewrite Hd.
  destruct (alike_runAllDeferred (deferred w2') w1' w2' Hw') as (Ho' & Hk' & _).
  destruct Hw as (_ & _ & Hd0). now repeat split.
Qed.

Lemma alike_RunCommand (d : string) (cmd : command) :
  alike (RunCommand env d cmd) (RunCommand env d cmd).
Proof.
  intros w1 w2 (Ho & Hk & Hd). unfold RunCommand, same_but_logs. cbn.
  now rewrite Ho.
Qed.

(** The size of an intent only decides whether a line is logged. *)
Lemma RestoreUsersOrRoles_size_ignored (n m : Z) (users roles : option Intent) :
  alike (RestoreUsersOrRoles env restore (resize n <$> users) (resize m <$> roles))
        (RestoreUsersOrRoles env restore users roles).
Proof.
  apply alike_withDeferred. unfold RestoreUsersOrRoles_body.
  destruct users as [u|], roles as [r|]; cbn [fmap option_fmap option_map resize DB];
    try apply alike_ret.
  all: apply alike_bind; [repeat alike_step|]; intros _.
  all: apply alike_bind; [apply alike_wrapErr, alike_GetSession|]; intros _.
  all: apply alike_bind;
    [|intros [mergeArgs userTargetDB]; cbv zeta;
      apply alike_bind; [repeat alike_step|]; intros command;
      apply alike_bind; [repeat alike_step|]; intros _;
      apply alike_bind; [apply alike_RunCommand|]; intros resSingle;
      repeat alike_step].
  - apply (alike_restoreArgs [n; m]
             [{| intent := u; intentType := "users";
                 mergeParamName := "tempUsersCollection";
                 tempCollectionName := TempUsersColl (OutputOptions restore) |};
              {| intent := r; intentType := "roles";
                 mergeParamName := "tempRolesCollection";
                 tempCollectionName := TempRolesColl (OutputOptions restore) |}]).
    reflexivity.
  - apply (alike_restoreArgs [n]
             [{| intent := u; intentType := "users";
                 mergeParamName := "tempUsersCollection";
                 tempCollectionName := TempUsersColl (OutputOptions restore) |}]).
    reflexivity.
  - apply (alike_restoreArgs [m]
             [{| intent := r; intentType := "roles";
                 mergeParamName := "tempRolesCollection";
                 tempCollectionName := TempRolesColl (OutputOptions restore) |}]).
    reflexivity.
Qed.

End SizeIgnored.

(** C1 does not hold of the code: for a users intent whose data file is
    empty, [RestoreUsersOrRoles] logs that it skips the users, and then
    restores the file to the temporary collection and passes that
    collection to the merge command all the same; and in general, taking
    the intents' files to be empty changes neither what it returns nor
    the operations it performs. *)
Theorem RestoreUsersOrRoles_empty_file_restored :
  (let r := RestoreUsersOrRoles Samples.quietEnv (Samples.restoreAt (7, 0, 0) "" false)
              (Some Samples.emptyUsers) None Samples.emptyWorld in
   Size Samples.emptyUsers = 0
   /\ r.1 = inr tt
   /\ logs r.2
      = [(Always, "users file 'dump/admin/system.users.bson' is empty; skipping users restoration");
         (Always, "restoring users from dump/admin/system.users.bson");
         (DebugLow, "restoring users to temporary collection");
         (DebugLow, "merging users/roles from temp collections");
         (DebugHigh, "dropping temporary collection admin.tempusers")]
   /\ ops r.2
      = [OpGetSession;
         OpBSONFileOpen "dump/admin/system.users.bson";
         OpGetSession;
         OpListCollections "admin";
         OpRestoreCollectionToDB "admin" "tempusers" "dump/admin/system.users.bson";
         OpRunCommand "admin"
           [("_mergeAuthzCollections", CV (VInt 1));
            ("tempUsersCollection", CV (VString "admin.tempusers"));
            ("drop", CV (VBool true)); ("db", CV (VString ""))];
         OpGetSession;
         OpDrop "admin" "tempusers";
         OpBSONSourceClose "dump/admin/system.users.bson";
         OpBSONFileClose "dump/admin/system.users.bson"])
  /\ (forall (env : Env) (restore : MongoRestore) (users roles : option Intent)
        (w : world),
        let r0 := RestoreUsersOrRoles env restore
                    (resize 0 <$> users) (resize 0 <$> roles) w in
        let r := RestoreUsersOrRoles env restore users roles w in
        r0.1 = r.1 /\ ops r0.2 = ops r.2).
Proof.
  split; [vm_compute; repeat split|].
  intros env restore users roles w. cbv zeta.
  destruct (RestoreUsersOrRoles_size_ignored env restore 0 0 users roles w w)
    as (Hr & Hops & _); [now repeat split|].
  now split.
Qed.

(** * Further properties *)

(** ** The X.509 user name *)

Lemma insert_middle {A} (l1 l2 : list A) (x y : A) (n : nat) :
  n = List.length l1 -> <[n := y]> (l1 ++ x :: l2)%list = (l1 ++ y :: l2)%list.
Proof.
  intros ->. rewrite <- (Nat.add_0_r (List.length l1)). now rewrite insert_app_r.
Qed.

Lemma swapPairs_rev (rounds : nat) (a mid b : list string) :
  (List.length mid <= 2 * rounds + 1)%nat ->
  dbconn.swapPairs rounds (Z.of_nat (List.length a))
                   (Z.of_nat (List.length a + List.length mid) - 1)
                   (a ++ mid ++ b)%list
  = (a ++ rev mid ++ b)%list.
Proof.
  revert a mid b. induction rounds as [|rounds IH]; intros a mid b Hlen.
  - destruct mid as [|x [|y mid]]; cbn in Hlen; try lia; reflexivity.
  - cbn [dbconn.swapPairs].
    destruct mid as [|x mid].
    { rewrite Nat.add_0_r. now rewrite (proj2 (Z.ltb_ge _ _)) by lia. }
    destruct mid as [|y m _] using rev_ind.
    { rewrite (proj2 (Z.ltb_ge _ _)) by (cbn; lia). reflexivity. }
    rewrite length_cons, length_app in *. cbn [List.length] in *.
    rewrite (proj2 (Z.ltb_lt _ _)) by lia.
    rewrite Nat2Z.id.
    replace (Z.to_nat (Z.of_nat (List.length a + S (List.length m + 1)) - 1))
      with (List.length a + S (List.length m))%nat by lia.
    change ((x :: m ++ [y]) ++ b)%list with (x :: (m ++ [y]) ++ b)%list.
    assert (Hl : (a ++ x :: (m ++ [y]) ++ b)%list !! List.length a = Some x).
    { now apply list_lookup_middle. }
    assert (Hr : (a ++ x :: (m ++ [y]) ++ b)%list !! (List.length a + S (List.length m))%nat
                 = Some y).
    { replace (a ++ x :: (m ++ [y]) ++ b)%list with ((a ++ x :: m) ++ y :: b)%list
        by (now rewrite <- !app_assoc).
      apply list_lookup_middle. rewrite length_app. reflexivity. }
    rewrite Hl, Hr.
    assert (Hswap : <[(List.length a + S (List.length m))%nat := x]>
                      (<[List.length a := y]> (a ++ x :: (m ++ [y]) ++ b)%list)
                    = ((a ++ [y]) ++ m ++ (x :: b))%list).
    { rewrite (insert_middle a) by reflexivity.
      replace (a ++ y :: (m ++ [y]) ++ b)%list with ((a ++ y :: m) ++ y :: b)%list
        by (now rewrite <- !app_assoc).
      rewrite (insert_middle (a ++ y :: m))
        by (rewrite length_app; reflexivity).
      now rewrite <- !app_assoc. }
    rewrite Hswap.
    replace (Z.of_nat (List.length a) + 1) with (Z.of_nat (List.length (a ++ [y])))
      by (rewrite length_app; cbn; lia).
    replace (Z.of_nat (List.length a + S (List.length m + 1)) - 1 - 1)
      with (Z.of_nat (List.length (a ++ [y]) + List.length m) - 1)
      by (rewrite length_app; cbn; lia).
    rewrite IH by lia.
    cbn [rev]. rewrite rev_app_distr. cbn. rewrite <- !app_assoc. reflexivity.
Qed.

Lemma Split_not_nil (s : string) (sep : ascii) : dbconn.Split s sep <> [].
Proof.
  destruct s as [|c s]; cbn; [discriminate|].
  destruct (Ascii.eqb c sep); [discriminate|].
  destruct (dbconn.Split s sep); discriminate.
Qed.

Lemma Join_cons (p : string) (pieces : list string) (sep : string) :
  pieces <> [] -> Join (p :: pieces) sep = p +:+ sep +:+ Join pieces sep.
Proof. destruct pieces; [congruence|reflexivity]. Qed.

Lemma Join_Split (s : string) (sep : ascii) :
  Join (dbconn.Split s sep) (String sep "") = s.
Proof.
  induction s as [|c s IH]; [reflexivity|]. cbn [dbconn.Split].
  destruct (Ascii.eqb_spec c sep) as [->|Hne].
  - rewrite Join_cons by apply Split_not_nil. now rewrite IH.
  - pose proof (Split_not_nil s sep) as Hnil.
    destruct (dbconn.Split s sep) as [|piece pieces]; [congruence|].
    destruct pieces as [|q pieces]; [cbn in *; congruence|].
    rewrite Join_cons in * by discriminate.
    change (String c piece +:+ ?r) with (String c (piece +:+ r)). now rewrite IH.
Qed.

(** A piece without the separator is its own only piece. *)
Lemma Split_pieces (s : string) (sep : ascii) :
  Forall (fun p => dbconn.Split p sep = [p]) (dbconn.Split s sep).
Proof.
  induction s as [|c s IH]; [now repeat constructor|]. cbn [dbconn.Split].
  destruct (Ascii.eqb_spec c sep) as [->|Hne]; [now constructor|].
  pose proof (Split_not_nil s sep) as Hnil.
  destruct (dbconn.Split s sep) as [|piece pieces]; [congruence|].
  apply Forall_cons in IH as [Hp Hps]. constructor; [|assumption].
  cbn [dbconn.Split]. destruct (Ascii.eqb_spec c sep); [contradiction|]. now rewrite Hp.
Qed.

Lemma Split_append (p rest : string) (sep : ascii) :
  dbconn.Split p sep = [p] ->
  dbconn.Split (p +:+ String sep rest) sep = p :: dbconn.Split rest sep.
Proof.
  induction p as [|c p IH]; intros Hp.
  - change ("" +:+ ?r) with r. cbn [dbconn.Split]. now rewrite Ascii.eqb_refl.
  - change (String c p +:+ ?r) with (String c (p +:+ r)).
    cbn [dbconn.Split] in *.
    destruct (Ascii.eqb c sep); [discriminate|].
    destruct (dbconn.Split p sep) as [|piece pieces] eqn:Hsplit.
    + now destruct (Split_not_nil p sep).
    + injection Hp as -> ->. now rewrite IH.
Qed.

Lemma Split_Join (pieces : list string) (sep : ascii) :
  pieces <> [] ->
  Forall (fun p => dbconn.Split p sep = [p]) pieces ->
  dbconn.Split (Join pieces (String sep "")) sep = pieces.
Proof.
  induction pieces as [|p pieces IH]; [congruence|]. intros _ Hall.
  apply Forall_cons in Hall as [Hp Hps].
  destruct pieces as [|q pieces]; [exact Hp|].
  rewrite Join_cons by discriminate.
  change (p +:+ String sep "" +:+ ?r) with (p +:+ String sep r).
  rewrite Split_append by assumption. now rewrite IH.
Qed.

(** The loop of [extractX509UsernameFromSubject] reverses the whole list. *)
Lemma swapPairs_all (pairs : list string) :
  dbconn.swapPairs (List.length pairs) 0 (Z.of_nat (List.length pairs) - 1) pairs
  = rev pairs.
Proof.
  pose proof (swapPairs_rev (List.length pairs) [] pairs []) as H.
  cbn [List.length app Nat.add] in H. rewrite !app_nil_r in H.
  apply H. lia.
Qed.

(** X1: [extractX509UsernameFromSubject] returns the comma-separated
    pieces of the subject in the opposite order, joined by commas again. *)
Theorem extractX509UsernameFromSubject_reverses (subject : string) :
  dbconn.extractX509UsernameFromSubject subject
  = Join (rev (dbconn.Split subject ",")) ",".
Proof.
  unfold dbconn.extractX509UsernameFromSubject. cbv zeta. now rewrite swapPairs_all.
Qed.

(** X2: applying [extractX509UsernameFromSubject] twice gives the subject
    back. *)
Theorem extractX509UsernameFromSubject_involutive (subject : string) :
  dbconn.extractX509UsernameFromSubject
    (dbconn.extractX509UsernameFromSubject subject)
  = subject.
Proof.
  unfold dbconn.extractX509UsernameFromSubject. cbv zeta. rewrite !swapPairs_all.
  rewrite Split_Join.
  - rewrite rev_involutive. apply Join_Split.
  - intros Hnil. apply (f_equal (@rev string)) in Hnil.
    rewrite rev_involutive in Hnil. now apply Split_not_nil in Hnil.
  - apply Forall_forall. intros p Hp%list_elem_of_In%in_rev.
    pose proof (Split_pieces subject ",") as Hall.
    rewrite List.Forall_forall in Hall. now apply Hall.
Qed.

(** ** The session provider *)

Lemma calls_closed {Client} (cs : list dbconn.call) (sp : dbconn.SessionProvider Client) :
  dbconn.client sp = None ->
  let '(sp', got, closed) := dbconn.calls cs sp in
  dbconn.client sp' = None
  /\ closed = []
  /\ Forall (fun r => r = (None, Some (errors_New "SessionProvider already closed"))) got.
Proof.
  intros Hsp. induction cs as [|[|] cs IH]; cbn [dbconn.calls].
  - now repeat split.
  - destruct (dbconn.calls cs sp) as [[sp' got] closed].
    destruct IH as (? & ? & ?). repeat split; try assumption.
    constructor; [|assumption]. unfold dbconn.GetSession. now rewrite Hsp.
  - unfold dbconn.Close. rewrite Hsp.
    destruct (dbconn.calls cs sp) as [[sp' got] closed].
    destruct IH as (? & -> & ?). now repeat split.
Qed.

(** X3: over any run of [GetSession] and [Close] calls, the provider
    disconnects at most once, and only the client it held at the start;
    and every [GetSession] after a [Close] returns no client and the
    error "SessionProvider already closed". *)
Theorem SessionProvider_calls {Client} (sp : dbconn.SessionProvider Client) :
  (forall cs,
     let '(_, _, closed) := dbconn.calls cs sp in
     closed = [] \/ exists c, dbconn.client sp = Some c /\ closed = [c])
  /\ (forall before after,
        let '(_, got, _) := dbconn.calls (before ++ dbconn.CallClose :: after) sp in
        let '(_, got_before, _) := dbconn.calls before sp in
        Forall (fun r => r = (None, Some (errors_New "SessionProvider already closed")))
               (drop (List.length got_before) got)).
Proof.
  split.
  - intros cs. revert sp. induction cs as [|[|] cs IH]; intros sp; cbn [dbconn.calls].
    + now left.
    + specialize (IH sp). now destruct (dbconn.calls cs sp) as [[sp' got] closed].
    + unfold dbconn.Close. destruct (dbconn.client sp) as [c|] eqn:Hc.
      * pose proof (calls_closed (Client:=Client) cs {| dbconn.client := None |} eq_refl) as H.
        destruct (dbconn.calls cs _) as [[sp' got] closed].
        destruct H as (_ & -> & _). right. now exists c.
      * pose proof (calls_closed cs sp Hc) as H.
        destruct (dbconn.calls cs sp) as [[sp' got] closed].
        destruct H as (_ & -> & _). now left.
  - intros before after. revert sp.
    induction before as [|[|] before IH]; intros sp; cbn [dbconn.calls app].
    + assert (Hclosed : dbconn.client (dbconn.Close sp).1 = None).
      { unfold dbconn.Close. now destruct (dbconn.client sp) eqn:Hc. }
      destruct (dbconn.Close sp) as [sp1 closed1]. cbn [fst] in Hclosed.
      pose proof (calls_closed after sp1 Hclosed) as H.
      destruct (dbconn.calls after sp1) as [[sp' got] closed].
      now destruct H as (_ & _ & Hgot).
    + specialize (IH sp).
      destruct (dbconn.calls (before ++ dbconn.CallClose :: after) sp) as [[sp' got] closed].
      destruct (dbconn.calls before sp) as [[sp'' got_before] closed'].
      exact IH.
    + destruct (dbconn.Close sp) as [sp1 closed1]. specialize (IH sp1).
      destruct (dbconn.calls (before ++ dbconn.CallClose :: after) sp1) as [[sp' got] closed].
      destruct (dbconn.calls before sp1) as [[sp'' got_before] closed'].
      exact IH.
Qed.

(** ** The cache of collection names *)

Lemma cacheNames_cons (dbName n : string) (raws : list RawName) (w : world) :
  cacheNames dbName (RawString n :: raws) w
  = cacheNames dbName raws
      (set_knownCollections
         (<[dbName := (default [] (knownCollections w !! dbName) ++ [n])%list]>
            (knownCollections w)) w).
Proof. reflexivity. Qed.

Lemma cacheNames_strings (dbName : string) (names : list string) (w : world) :
  exists w',
    cacheNames dbName (RawString <$> names) w = (inr tt, w')
    /\ ops w' = ops w /\ logs w' = logs w /\ deferred w' = deferred w
    /\ default [] (knownCollections w' !! dbName)
       = (default [] (knownCollections w !! dbName) ++ names)%list
    /\ (forall d, d <> dbName -> knownCollections w' !! d = knownCollections w !! d).
Proof.
  revert w. induction names as [|n names IH]; intros w.
  - exists w. cbn. rewrite app_nil_r. now repeat split.
  - rewrite fmap_cons, cacheNames_cons.
    match goal with |- context [cacheNames dbName _ ?w1] =>
      destruct (IH w1) as (w' & Hrun & Hops & Hlogs & Hdef & Hk & Hother) end.
    exists w'. rewrite Hrun. cbn in *. repeat split; try assumption.
    + rewrite Hk, lookup_insert_eq. cbn. now rewrite <- app_assoc.
    + intros d Hd. rewrite Hother by assumption. now rewrite lookup_insert_ne.
Qed.

Lemma cacheNames_other (dbName rendering : string) (names : list string)
    (rest : list RawName) (w : world) :
  exists w',
    cacheNames dbName ((RawString <$> names) ++ RawOther rendering :: rest)%list w
    = (inl (errors_New ("invalid collection name: " +:+ rendering)), w')
    /\ ops w' = ops w /\ deferred w' = deferred w
    /\ default [] (knownCollections w' !! dbName)
       = (default [] (knownCollections w !! dbName) ++ names)%list.
Proof.
  revert w. induction names as [|n names IH]; intros w.
  - exists w. cbn. rewrite app_nil_r. now repeat split.
  - rewrite fmap_cons, <- app_comm_cons, cacheNames_cons.
    match goal with |- context [cacheNames dbName _ ?w1] =>
      destruct (IH w1) as (w' & Hrun & Hops & Hdef & Hk) end.
    exists w'. rewrite Hrun. cbn in *. repeat split; try assumption.
    rewrite Hk, lookup_insert_eq. cbn. now rewrite <- app_assoc.
Qed.

Section CollectionExists.

Context (env : Env) (dbName : string).

(** A call that finds the database in the cache. *)
Lemma CollectionExists_hit (coll : string) (w : world) :
  default [] (knownCollections w !! dbName) <> [] ->
  CollectionExists env dbName coll w
  = (inr (bool_decide (coll ∈ default [] (knownCollections w !! dbName))), w).
Proof.
  intros Hknown. unfold CollectionExists, known. run_M.
  destruct (default [] (knownCollections w !! dbName)) eqn:Hk; [easy|].
  cbn. now rewrite Hk.
Qed.

(** A call that does not find the database in the cache asks the server. *)
Lemma CollectionExists_asks (coll : string) (w : world) :
  default [] (knownCollections w !! dbName) = [] ->
  envGetSession env (ops w) = None ->
  new_ops w (CollectionExists env dbName coll w).2
  = [OpGetSession; OpListCollections dbName].
Proof.
  intros Hmiss Hsession. apply new_ops_app.
  unfold CollectionExists, known. run_M. rewrite Hmiss, Hsession. run_M.
  destruct (envListCollections env _ dbName) as [e|raws]; run_M.
  - now rewrite <- app_assoc.
  - match goal with |- context [cacheNames dbName raws ?w2] =>
      destruct (emits_cacheNames (fun _ => False) dbName raws w2)
        as (added & Hops & Hadded & _) end.
    destruct added as [|o added]; [|now inversion Hadded].
    rewrite app_nil_r in Hops.
    destruct (cacheNames dbName raws _) as [[e|[]] w3]; cbn [fst snd ops] in *;
      rewrite Hops; cbn; now rewrite <- app_assoc.
Qed.

(** A call that does not find the database in the cache, and is given the
    names of its collections. *)
Lemma CollectionExists_miss (coll : string) (names : list string) (w : world) :
  default [] (knownCollections w !! dbName) = [] ->
  envGetSession env (ops w) = None ->
  envListCollections env (ops w ++ [OpGetSession]) dbName = inr (RawString <$> names) ->
  exists w',
    CollectionExists env dbName coll w = (inr (bool_decide (coll ∈ names)), w')
    /\ ops w' = (ops w ++ [OpGetSession; OpListCollections dbName])%list
    /\ default [] (knownCollections w' !! dbName) = names
    /\ (forall d, d <> dbName -> knownCollections w' !! d = knownCollections w !! d).
Proof.
  intros Hmiss Hsession Hlist.
  unfold CollectionExists, known. run_M. rewrite Hmiss, Hsession. run_M.
  rewrite Hlist. run_M.
  match goal with |- context [cacheNames dbName _ ?w1] =>
    destruct (cacheNames_strings dbName names w1)
      as (w' & Hrun & Hops & Hlogs & Hdef & Hk & Hother) end.
  exists w'. rewrite Hrun. cbn [fst snd ops knownCollections add_op] in *.
  rewrite Hmiss in Hk. cbn in Hk. rewrite Hk.
  repeat split; try assumption. rewrite Hops. now rewrite <- app_assoc.
Qed.

(** X4: when the database is not in the cache, [CollectionExists] gets a
    session, lists the database's collections once, caches the names and
    answers whether the collection is among them. *)
Theorem CollectionExists_lists (coll : string) (names : list string) (w : world) :
  default [] (knownCollections w !! dbName) = [] ->
  envGetSession env (ops w) = None ->
  envListCollections env (ops w ++ [OpGetSession]) dbName = inr (RawString <$> names) ->
  let r := CollectionExists env dbName coll w in
  r.1 = inr (bool_decide (coll ∈ names))
  /\ new_ops w r.2 = [OpGetSession; OpListCollections dbName]
  /\ default [] (knownCollections r.2 !! dbName) = names
  /\ (forall d, d <> dbName -> knownCollections r.2 !! d = knownCollections w !! d).
Proof.
  intros Hmiss Hsession Hlist. cbv zeta.
  destruct (CollectionExists_miss coll names w Hmiss Hsession Hlist)
    as (w' & -> & Hops & Hk & Hother).
  repeat split; try assumption. now apply new_ops_app.
Qed.

(** X5: after such a call has listed at least one collection, a further
    call for the database does nothing to the server: it answers from
    the names cached, and leaves everything as it is. *)
Theorem CollectionExists_twice (coll coll' : string) (names : list string) (w : world) :
  default [] (knownCollections w !! dbName) = [] ->
  envGetSession env (ops w) = None ->
  envListCollections env (ops w ++ [OpGetSession]) dbName = inr (RawString <$> names) ->
  names <> [] ->
  let w1 := (CollectionExists env dbName coll w).2 in
  CollectionExists env dbName coll' w1 = (inr (bool_decide (coll' ∈ names)), w1).
Proof.
  intros Hmiss Hsession Hlist Hnames. cbv zeta.
  destruct (CollectionExists_miss coll names w Hmiss Hsession Hlist)
    as (w' & -> & _ & Hk & _). cbn [snd].
  rewrite CollectionExists_hit by (now rewrite Hk). now rewrite Hk.
Qed.

(** X6: a database found empty is not cached: the next call lists its
    collections again. *)
Theorem CollectionExists_empty_again (coll coll' : string) (w : world) :
  default [] (knownCollections w !! dbName) = [] ->
  envGetSession env (ops w) = None ->
  envListCollections env (ops w ++ [OpGetSession]) dbName = inr [] ->
  let r := CollectionExists env dbName coll w in
  r.1 = inr false
  /\ (envGetSession env (ops r.2) = None ->
      new_ops r.2 (CollectionExists env dbName coll' r.2).2
      = [OpGetSession; OpListCollections dbName]).
Proof.
  intros Hmiss Hsession Hlist. cbv zeta.
  destruct (CollectionExists_miss coll [] w Hmiss Hsession Hlist)
    as (w' & -> & _ & Hk & _). cbn [fst snd].
  split; [reflexivity|]. intros Hsession'. now apply CollectionExists_asks.
Qed.

(** X7: a listed collection whose name is not a string stops the call
    with an error, and the names listed before it stay cached: when
    there are any, later calls answer from those names alone, without
    asking the server, also for a collection listed after the bad one. *)
Theorem CollectionExists_bad_name (coll coll' rendering : string)
    (names : list string) (rest : list RawName) (w : world) :
  default [] (knownCollections w !! dbName) = [] ->
  envGetSession env (ops w) = None ->
  envListCollections env (ops w ++ [OpGetSession]) dbName
  = inr ((RawString <$> names) ++ RawOther rendering :: rest)%list ->
  let r := CollectionExists env dbName coll w in
  r.1 = inl (errors_New ("invalid collection name: " +:+ rendering))
  /\ default [] (knownCollections r.2 !! dbName) = names
  /\ (names <> [] ->
      CollectionExists env dbName coll' r.2 = (inr (bool_decide (coll' ∈ names)), r.2)).
Proof.
  intros Hmiss Hsession Hlist. cbv zeta.
  assert (Hfirst :
    (CollectionExists env dbName coll w).1
    = inl (errors_New ("invalid collection name: " +:+ rendering))
    /\ default [] (knownCollections (CollectionExists env dbName coll w).2 !! dbName)
       = names).
  { unfold CollectionExists, known. run_M. rewrite Hmiss, Hsession. run_M.
    rewrite Hlist. run_M.
    match goal with |- context [cacheNames dbName _ ?w1] =>
      destruct (cacheNames_other dbName rendering names rest w1)
        as (w' & Hrun & Hops & Hdef & Hk) end.
    rewrite Hrun. cbn [fst snd ops knownCollections add_op] in *.
    rewrite Hmiss in Hk. now split. }
  destruct Hfirst as [Hr Hk]. split; [exact Hr|]. split; [exact Hk|].
  intros Hnames. rewrite CollectionExists_hit by (now rewrite Hk). now rewrite Hk.
Qed.

End CollectionExists.

(** ** The first index that fails the checks of CreateIndexes *)

Section FirstBadIndex.

Context (env : Env) (restore : MongoRestore) (dbName collectionName : string).

(** X8: the first index document that does not pass the checks stops
    [CreateIndexes] before any operation on the server.  When its option
    map is nil, the call panics at the assignment of [ns]; otherwise it
    returns the error of the check the document fails: the length of its
    full name first (below 4.2), then its name being a string. *)
Theorem CreateIndexes_first_bad_index (before after : list IndexDocument)
    (bad : IndexDocument) (w : world) :
  Forall (indexOk restore dbName collectionName) before ->
  ~ indexOk restore dbName collectionName bad ->
  let indexes := (before ++ bad :: after)%list in
  let err :=
    if db.LT (serverVersion restore) (4, 2, 0)
       && (127 <? String.length (qualifiedName dbName collectionName bad))%nat
    then errors_New ("cannot restore index with namespace '"
                       +:+ qualifiedName dbName collectionName bad +:+ "': "
                       +:+ "namespace is too long (max size is 127 bytes)")
    else errors_New ("expected name (" +:+ TypeOf (option_of bad "name") +:+ ": "
                       +:+ Sprint (option_of bad "name") +:+ ") to be a string") in
  CreateIndexes env restore dbName collectionName indexes w
  = match Options bad with
    | NilMap =>
        (inl (errors_New "assignment to entry in nil map"),
         add_op (OpPanic "assignment to entry in nil map") w)
    | Map _ => (inl err, w)
    end.
Proof.
  intros Hbefore Hbad. cbv zeta.
  pose proof (CreateIndexes_run env restore dbName collectionName
                (before ++ bad :: after) w) as Hrun.
  cbv zeta in Hrun.
  destruct (nil_or_allocated (Options bad)) as [Hnil|Hallocated].
  - assert (Hs : sanitizeIndexes restore dbName collectionName (bad :: after)
                 = Panics "assignment to entry in nil map").
    { cbn [sanitizeIndexes]. unfold set_option. now rewrite Hnil. }
    rewrite sanitizeIndexes_stops, Hs in Hrun;
      [|assumption|intros sent names; rewrite Hs; discriminate].
    now rewrite Hnil.
  - destruct (set_option_ns restore dbName collectionName bad Hallocated)
      as (index' & Hset & Hfull & Hname' & _).
    assert (Hs : exists e,
      sanitizeIndexes restore dbName collectionName (bad :: after) = Fails e
      /\ e = if db.LT (serverVersion restore) (4, 2, 0)
                && (127 <? String.length
                             (qualifiedName dbName collectionName bad))%nat
             then errors_New ("cannot restore index with namespace '"
                    +:+ qualifiedName dbName collectionName bad +:+ "': "
                    +:+ "namespace is too long (max size is 127 bytes)")
             else errors_New ("expected name ("
                    +:+ TypeOf (option_of bad "name") +:+ ": "
                    +:+ Sprint (option_of bad "name") +:+ ") to be a string")).
    { cbn [sanitizeIndexes]. rewrite Hset, Hfull, Hname'.
      destruct (db.LT (serverVersion restore) (4, 2, 0)
                && (127 <? String.length (qualifiedName dbName collectionName bad))%nat)
        eqn:Hcheck; [eauto|].
      destruct (option_of bad "name") as [| | | | |nameStr|] eqn:Hname; eauto.
      destruct Hbad. split; [|eauto].
      intros Hlt. rewrite Hlt in Hcheck. cbn [andb] in Hcheck.
      now apply Nat.ltb_ge in Hcheck. }
    destruct Hs as (e & Hs & ->).
    rewrite sanitizeIndexes_stops, Hs in Hrun;
      [|assumption|intros sent names; rewrite Hs; discriminate].
    destruct (Options bad); [congruence|exact Hrun].
Qed.

End FirstBadIndex.

(** ** The two ways of CreateCollection *)

Section CreateCollection.

Context (env : Env) (restore : MongoRestore) (intent : Intent) (options : D).

(** X9: a UUID that is not a hexadecimal string is found out before
    anything is sent: with the session there, [CreateCollection] returns
    the error of [hex.DecodeString] wrapped, and has only got the session. *)
Theorem CreateCollection_invalid_uuid (uuid : string) (err : error) (w : world) :
  envGetSession env (ops w) = None ->
  hex.DecodeString uuid = inl err ->
  let r := CreateCollection env restore intent options uuid w in
  r.1 = inl (Errorf "Couldn't restore UUID because UUID was invalid: " err)
  /\ new_ops w r.2 = [OpGetSession].
Proof.
  intros Hsession Hhex. cbv zeta.
  assert (Huuid : String.eqb uuid "" = false).
  { destruct uuid; [discriminate|reflexivity]. }
  unfold CreateCollection. run_M. rewrite Hsession, Huuid. run_M. cbn [negb].
  unfold createCollectionWithApplyOps. run_M.
  match goal with |- context [UpdateAutoIndexId restore options ?w1] =>
    destruct (UpdateAutoIndexId_run restore options w1) as (w' & Hrun & Hops) end.
  rewrite Hrun, Hhex. run_M. split; [reflexivity|].
  apply new_ops_app. now rewrite Hops.
Qed.

(** X10: [CreateCollection] sends one request at most, and the UUID
    chooses which: without a UUID it never applies operations, and with
    the session there it runs one command; with a UUID it never runs a
    command, and with the session there and the UUID decoded to [bytes]
    it applies one entry, whose [ui] is the binary of subtype 4 holding
    [bytes]. *)
Theorem CreateCollection_request (uuid : string) (w : world) :
  let r := CreateCollection env restore intent options uuid w in
  match envGetSession env (ops w) with
  | Some e =>
      r.1 = inl (Errorf "error establishing connection: " e)
      /\ new_ops w r.2 = [OpGetSession]
  | None =>
      if String.eqb uuid ""
      then exists cmd, new_ops w r.2 = [OpGetSession; OpRunCommand (DB intent) cmd]
      else match hex.DecodeString uuid with
           | inl _ => new_ops w r.2 = [OpGetSession]
           | inr bytes =>
               exists entry,
                 new_ops w r.2 = [OpGetSession; OpApplyOps [entry]]
                 /\ UI entry = Some (4, bytes)
                 /\ r.1 = match envApplyOps env (ops w ++ [OpGetSession]) [entry] with
                          | Some e => inl e
                          | None => inr tt
                          end
           end
  end.
Proof.
  cbv zeta. unfold CreateCollection. run_M.
  destruct (envGetSession env (ops w)) as [e|]; run_M.
  { split; [reflexivity|]. now apply new_ops_app. }
  destruct (String.eqb uuid ""); cbn [negb].
  - unfold createCollectionWithCommand. run_M.
    match goal with |- context [UpdateAutoIndexId restore options ?w1] =>
      destruct (UpdateAutoIndexId_run restore options w1) as (w' & Hrun & Hops) end.
    rewrite Hrun. run_M. eexists. apply new_ops_app.
    destruct (Err _); run_M.
    + rewrite Hops. cbn. now rewrite <- app_assoc.
    + destruct (Decode _); run_M.
      * rewrite Hops. cbn. now rewrite <- app_assoc.
      * destruct (envIsFalsy _ _); run_M; rewrite Hops; cbn; now rewrite <- app_assoc.
  - unfold createCollectionWithApplyOps. run_M.
    match goal with |- context [UpdateAutoIndexId restore options ?w1] =>
      destruct (UpdateAutoIndexId_run restore options w1) as (w' & Hrun & Hops) end.
    rewrite Hrun. run_M. destruct (hex.DecodeString uuid) as [err|bytes]; run_M.
    + apply new_ops_app. now rewrite Hops.
    + unfold ApplyOps. run_M. rewrite Hops. cbn [ops add_op].
      exists {| Operation := "c"; Namespace := DB intent +:+ ".$cmd";
                Object := createCollectionCommand intent (rewritten restore options);
                UI := Some (4, bytes) |}.
      unfold rewritten. split; [|split; [reflexivity|]].
      * apply new_ops_app.
        destruct (envApplyOps _ _ _); cbn; rewrite Hops; cbn; now rewrite <- app_assoc.
      * now destruct (envApplyOps _ _ _).
Qed.

End CreateCollection.

(** ** Rules for [wp] *)

Section WpRules.

Context (h0 : list op).

Lemma wp_ret {A} (a : A) Post prev ds :
  Post (inr a) prev ds -> wp h0 (mret a) Post prev ds.
Proof. intros H w Hops <-. exists prev. now split. Qed.

Lemma wp_fail {A} (e : error) (Post : error + A -> _) prev ds :
  Post (inl e) prev ds -> wp h0 (fail e) Post prev ds.
Proof. intros H w Hops <-. exists prev. now split. Qed.

Lemma wp_bind {A B} (m : M A) (f : A -> M B) Post prev ds :
  wp h0 m (fun r prev' ds' =>
             match r with
             | inl e => Post (inl e) prev' ds'
             | inr a => wp h0 (f a) Post prev' ds'
             end) prev ds ->
  wp h0 (m ≫= f) Post prev ds.
Proof.
  intros H w Hops Hds. destruct (H w Hops Hds) as (prev' & Hops' & Hpost).
  unfold mbind, M_bind. destruct (m w) as [[e|a] w']; cbn [fst snd] in *.
  - now exists prev'.
  - now apply Hpost.
Qed.

Lemma wp_weaken {A} (m : M A) (Post Post' : error + A -> _) prev ds :
  wp h0 m Post prev ds ->
  (forall r prev' ds', Post r prev' ds' -> Post' r prev' ds') ->
  wp h0 m Post' prev ds.
Proof.
  intros H Himp w Hops Hds. destruct (H w Hops Hds) as (prev' & Hops' & Hpost).
  exists prev'. auto.
Qed.

Lemma wp_Logv (lvl : Level) (msg : string) Post prev ds :
  Post (inr tt) prev ds -> wp h0 (Logv lvl msg) Post prev ds.
Proof. intros H w Hops <-. exists prev. now split. Qed.

Lemma wp_defer (d : deferredCall) Post prev ds :
  Post (inr tt) prev (d :: ds) -> wp h0 (defer d) Post prev ds.
Proof. intros H w Hops <-. exists prev. now split. Qed.

Lemma wp_perform (o : op) (answer : list op -> option error) Post prev ds :
  Post (match answer (h0 ++ prev)%list with
        | Some e => inl e
        | None => inr tt
        end) (prev ++ [o])%list ds ->
  wp h0 (perform o answer) Post prev ds.
Proof.
  intros H w Hops <-. exists (prev ++ [o])%list. unfold perform.
  rewrite Hops. destruct (answer _); cbn; rewrite Hops, <- app_assoc; now split.
Qed.

Lemma wp_wrapErr {A} (f : error -> error) (m : M A) Post prev ds :
  wp h0 m (fun r => Post match r with inl e => inl (f e) | inr a => inr a end) prev ds ->
  wp h0 (wrapErr f m) Post prev ds.
Proof.
  intros H w Hops Hds. destruct (H w Hops Hds) as (prev' & Hops' & Hpost).
  exists prev'. unfold wrapErr. now destruct (m w) as [[e|a] w'].
Qed.

Lemma wp_attempt {A} (m : M A) Post prev ds :
  wp h0 m (fun r => Post (inr r)) prev ds -> wp h0 (attempt m) Post prev ds.
Proof.
  intros H w Hops Hds. destruct (H w Hops Hds) as (prev' & Hops' & Hpost).
  exists prev'. unfold attempt. now destruct (m w) as [r w'].
Qed.

Lemma wp_known (dbName : string) Post prev ds :
  (forall cached, Post (inr cached) prev ds) -> wp h0 (known dbName) Post prev ds.
Proof. intros H w Hops <-. exists prev. split; [exact Hops|apply H]. Qed.

Lemma wp_cacheNames (dbName : string) (collections : list RawName) Post prev ds :
  (forall r, Post r prev ds) -> wp h0 (cacheNames dbName collections) Post prev ds.
Proof.
  intros H. induction collections as [|[colName|r] rest IH]; cbn [cacheNames].
  - now apply wp_ret.
  - apply wp_bind. intros w Hops <-. exists prev. split; [exact Hops|]. exact IH.
  - now apply wp_fail.
Qed.

Lemma wp_ListCollections (env : Env) (dbName : string) Post prev ds :
  (forall r, Post r (prev ++ [OpListCollections dbName])%list ds) ->
  wp h0 (ListCollections env dbName) Post prev ds.
Proof.
  intros H w Hops <-. exists (prev ++ [OpListCollections dbName])%list.
  unfold ListCollections.
  destruct (envListCollections env (ops w) dbName); cbn; rewrite Hops, <- app_assoc;
    now split.
Qed.

Lemma wp_RunCommand (env : Env) (dbName : string) (cmd : command) Post prev ds :
  Post (inr (envRunCommand env (h0 ++ prev)%list dbName cmd))
       (prev ++ [OpRunCommand dbName cmd])%list ds ->
  wp h0 (RunCommand env dbName cmd) Post prev ds.
Proof.
  intros H w Hops <-. exists (prev ++ [OpRunCommand dbName cmd])%list.
  unfold RunCommand. cbn. rewrite Hops, <- app_assoc. now split.
Qed.

End WpRules.

Ltac wp_step :=
  lazymatch goal with
  | |- wp _ (mbind _ _) _ _ _ => apply wp_bind
  | |- wp _ (mret _) _ _ _ => apply wp_ret
  | |- wp _ (fail _) _ _ _ => apply wp_fail
  | |- wp _ (Logv _ _) _ _ _ => apply wp_Logv
  | |- wp _ (defer _) _ _ _ => apply wp_defer
  | |- wp _ (perform _ _) _ _ _ => apply wp_perform
  | |- wp _ (wrapErr _ _) _ _ _ => apply wp_wrapErr
  | |- wp _ (attempt _) _ _ _ => apply wp_attempt
  | |- wp _ (known _) _ _ _ => apply wp_known; intros ?
  | |- wp _ (cacheNames _ _) _ _ _ => apply wp_cacheNames; intros ?
  | |- wp _ (ListCollections _ _) _ _ _ => apply wp_ListCollections; intros ?
  | |- wp _ (RunCommand _ _ _) _ _ _ => apply wp_RunCommand
  end; cbv beta iota.

Ltac wp_steps := repeat wp_step.

(** [CollectionExists] gets a session and lists collections at most, and
    defers nothing. *)
Lemma wp_CollectionExists (env : Env) (h0 : list op) (dbName coll : string)
    Post prev ds :
  (forall r extra,
      Forall (fun o => o = OpGetSession \/ o = OpListCollections dbName) extra ->
      Post r (prev ++ extra)%list ds) ->
  wp h0 (CollectionExists env dbName coll) Post prev ds.
Proof.
  intros H.
  assert (H0 : forall r, Post r prev ds).
  { intros r. specialize (H r []). rewrite app_nil_r in H. apply H. constructor. }
  assert (H1 : forall r, Post r (prev ++ [OpGetSession])%list ds).
  { intros r. apply H. constructor; [now left|]. constructor. }
  assert (H2 : forall r, Post r ((prev ++ [OpGetSession])
                                   ++ [OpListCollections dbName])%list ds).
  { intros r. rewrite <- app_assoc. apply H.
    constructor; [now left|]. constructor; [now right|]. constructor. }
  unfold CollectionExists, GetSession. wp_steps.
  destruct cached; wp_steps; [|auto].
  destruct (envGetSession env _); [auto|]. wp_steps.
  destruct r as [e|collections]; [auto|]. wp_steps.
  destruct r as [e|[]]; [auto|]. wp_steps. auto.
Qed.

(** ** States followed along the operations *)

Section Track.

Context {S : Type} (step : list op -> op -> S -> option S).

Lemma track_app (h a b : list op) (s : S) :
  track step h (a ++ b) s
  = match track step h a s with
    | Some s' => track step (h ++ a) b s'
    | None => None
    end.
Proof.
  revert h s. induction a as [|o a IH]; intros h s; cbn [app track].
  - now rewrite app_nil_r.
  - destruct (step h o s) as [s'|]; [|reflexivity].
    rewrite IH. now rewrite <- app_assoc.
Qed.

Lemma track_snoc (h prev : list op) (o : op) (s s' s'' : S) :
  track step h prev s = Some s' ->
  step (h ++ prev) o s' = Some s'' ->
  track step h (prev ++ [o]) s = Some s''.
Proof. intros Hprev Hstep. rewrite track_app, Hprev. cbn. now rewrite Hstep. Qed.

Lemma track_neutral (h prev extra : list op) (s s' : S) :
  track step h prev s = Some s' ->
  Forall (fun o => forall h s, step h o s = Some s) extra ->
  track step h (prev ++ extra) s = Some s'.
Proof.
  intros Hprev Hextra. rewrite track_app, Hprev.
  generalize (h ++ prev)%list. induction Hextra as [|o extra Ho _ IH]; intros h'.
  - reflexivity.
  - cbn. now rewrite Ho.
Qed.

End Track.

(** ** The files that RestoreUsersOrRoles opens *)

Section Files.

Context (env : Env) (h0 : list op).

Lemma filesDeferred_extra (dbName : string) (prev extra : list op)
    (ds : list deferredCall) :
  filesDeferred env h0 prev ds ->
  Forall (fun o => o = OpGetSession \/ o = OpListCollections dbName) extra ->
  filesDeferred env h0 (prev ++ extra) ds.
Proof.
  intros Hprev Hextra. eapply track_neutral; [exact Hprev|].
  eapply Forall_impl; [exact Hextra|]. now intros o [->| ->].
Qed.

Lemma filesDeferred_snoc (prev : list op) (o : op) (ds ds' : list deferredCall) :
  filesDeferred env h0 prev ds ->
  fileStep env (h0 ++ prev) o (sourceCloses ds, fileCloses ds)
  = Some (sourceCloses ds', fileCloses ds') ->
  filesDeferred env h0 (prev ++ [o]) ds'.
Proof. intros Hprev Hstep. eapply track_snoc; [exact Hprev|exact Hstep]. Qed.

Lemma wp_restoreArg_files (arg : loopArg) (mergeArgs : command)
    (prev : list op) (ds : list deferredCall) :
  filesDeferred env h0 prev ds ->
  wp h0 (restoreArg env arg mergeArgs) (fun _ => filesDeferred env h0) prev ds.
Proof.
  intros Hinv. unfold restoreArg, BSONFileOpen, RestoreCollectionToDB, DropCollectionOp.
  wp_step. destruct (Size (intent arg) =? 0); wp_steps.
  all: destruct (envBSONFileOpen env (h0 ++ prev) (Location (intent arg))) eqn:Hopen.
  all: try (eapply filesDeferred_snoc; [exact Hinv|]; cbn; now rewrite Hopen).
  all: wp_steps; apply wp_CollectionExists; intros r extra Hextra.
  all: assert (Hopened : filesDeferred env h0
                (prev ++ [OpBSONFileOpen (Location (intent arg))])
                (DeferBSONSourceClose (Location (intent arg))
                 :: DeferBSONFileClose (Location (intent arg)) :: ds))
    by (eapply filesDeferred_snoc; [exact Hinv|]; cbn; now rewrite Hopen).
  all: pose proof (filesDeferred_extra _ _ _ _ Hopened Hextra) as Hlisted.
  all: destruct r as [e|[]]; [exact Hlisted| |]; wp_steps.
  all: repeat first
         [ wp_step
         | match goal with
           | |- context [match ?answer with Some _ => _ | None => _ end] =>
               destruct answer
           end ].
  all: repeat (eapply filesDeferred_snoc; [|reflexivity]); exact Hlisted.
Qed.

End Files.

(** ** Invariants of RestoreUsersOrRoles *)

Section Invariants.

Context (env : Env) (restore : MongoRestore) (h0 : list op).

(** [I] relates the operations done to the calls deferred; [J] relates
    the merge arguments to the operations done. *)
Context (I : list op -> list deferredCall -> Prop)
        (J : command -> list op -> Prop).

Hypothesis I_session : forall prev ds, I prev ds -> I (prev ++ [OpGetSession]) ds.

Hypothesis J_session : forall mergeArgs prev,
  J mergeArgs prev -> J mergeArgs (prev ++ [OpGetSession]).

Hypothesis I_command : forall prev ds mergeArgs userTargetDB tail,
  I prev ds -> J mergeArgs prev ->
  Forall (fun kv => kv.1 = "writeConcern") tail ->
  I (prev ++ [OpRunCommand "admin"
                (mergeCommand restore mergeArgs userTargetDB ++ tail)])%list ds.

Hypothesis wp_restoreArg_inv : forall arg mergeArgs prev ds,
  I prev ds -> J mergeArgs prev ->
  wp h0 (restoreArg env arg mergeArgs) (loopPost I J) prev ds.

Lemma wp_restoreArgs_inv (args : list loopArg) (mergeArgs : command)
    (userTargetDB : string) (prev : list op) (ds : list deferredCall) :
  I prev ds -> J mergeArgs prev ->
  wp h0 (restoreArgs env args mergeArgs userTargetDB) (loopPost I J) prev ds.
Proof.
  revert mergeArgs userTargetDB prev ds.
  induction args as [|arg args IH]; intros mergeArgs userTargetDB prev ds HI HJ;
    cbn [restoreArgs].
  - apply wp_ret. split; [exact HI|]. now intros ? ? [= <- <-].
  - apply wp_bind. eapply wp_weaken; [now apply wp_restoreArg_inv|].
    intros [e|[mergeArgs' userTargetDB']] prev' ds' [HI' HJ'].
    + split; [exact HI'|discriminate].
    + apply IH; [exact HI'|]. now apply (HJ' _ _ eq_refl).
Qed.

Lemma wp_body_inv (users roles : option Intent) (prev : list op)
    (ds : list deferredCall) :
  I prev ds -> J [] prev ->
  wp h0 (RestoreUsersOrRoles_body env restore users roles) (fun _ => I) prev ds.
Proof.
  intros HI HJ. unfold RestoreUsersOrRoles_body.
  assert (Hrest : forall args,
    wp h0
      (wrapErr (Errorf "error establishing connection: ") (GetSession env);;
       '(mergeArgs, userTargetDB) ← restoreArgs env args [] "";
       let userTargetDB :=
         if String.eqb userTargetDB "admin" then "" else userTargetDB in
       let command := mergeCommand restore mergeArgs userTargetDB in
       command ← match WriteConcern (ToolOptions restore) with
                 | None => mret command
                 | Some (inl err) => fail (Errorf "error parsing write concern: " err)
                 | Some (inr writeConcern) =>
                     mret (command ++ [("writeConcern", CM writeConcern)])%list
                 end;
       Logv DebugLow "merging users/roles from temp collections";;
       resSingle ← RunCommand env "admin" command;
       match Err resSingle with
       | Some err => fail (Errorf "error running merge command: " err)
       | None =>
           match Decode resSingle with
           | inl err => fail (Errorf "error decoding result of merge command: " err)
           | inr res =>
               if envIsFalsy env (default VNil (res !! "ok"))
               then fail (errors_New ("_mergeAuthzCollections command: "
                                        +:+ Sprint (default VNil (res !! "errmsg"))))
               else mret tt
           end
       end)
      (fun _ => I) prev ds).
  { intros args. unfold GetSession. wp_steps.
    destruct (envGetSession env (h0 ++ prev)); [now apply I_session|].
    wp_step. eapply wp_weaken;
      [apply wp_restoreArgs_inv; [now apply I_session|now apply J_session]|].
    intros [e|[mergeArgs userTargetDB]] prev' ds' [HI' HJ']; [exact HI'|].
    specialize (HJ' _ _ eq_refl). cbv zeta. wp_step.
    destruct (WriteConcern (ToolOptions restore)) as [[err|writeConcern]|]; wp_steps.
    - exact HI'.
    - assert (HI'' := I_command prev' ds' mergeArgs
                        (if String.eqb userTargetDB "admin" then "" else userTargetDB)
                        [("writeConcern", CM writeConcern)] HI' HJ'
                        ltac:(now repeat constructor)).
      destruct (Err _); wp_steps; [exact HI''|].
      destruct (Decode _); wp_steps; [exact HI''|].
      destruct (envIsFalsy _ _); wp_steps; exact HI''.
    - assert (HI'' := I_command prev' ds' mergeArgs
                        (if String.eqb userTargetDB "admin" then "" else userTargetDB)
                        [] HI' HJ' ltac:(constructor)).
      rewrite app_nil_r in HI''.
      destruct (Err _); wp_steps; [exact HI''|].
      destruct (Decode _); wp_steps; [exact HI''|].
      destruct (envIsFalsy _ _); wp_steps; exact HI''. }
  destruct users as [u|], roles as [r|].
  - wp_step. destruct (negb _); wp_step; [exact HI|apply Hrest].
  - do 2 wp_step. apply Hrest.
  - do 2 wp_step. apply Hrest.
  - now apply wp_ret.
Qed.

End Invariants.

Section Deferred.

Context (env : Env) (h0 : list op) (I : list op -> list deferredCall -> Prop).

Hypothesis wp_runDeferred_inv : forall d rest prev ds,
  I prev (d :: rest) ->
  wp h0 (runDeferred env d) (fun _ prev' _ => I prev' rest) prev ds.

Lemma runAllDeferred_inv (ds : list deferredCall) (w : world) (prev : list op) :
  ops w = (h0 ++ prev)%list -> I prev ds ->
  exists prev', ops (runAllDeferred env ds w) = (h0 ++ prev')%list /\ I prev' [].
Proof.
  revert w prev. induction ds as [|d ds IH]; intros w prev Hops HI; cbn [runAllDeferred].
  - now exists prev.
  - destruct (wp_runDeferred_inv d ds prev (deferred w) HI w Hops eq_refl)
      as (prev' & Hops' & HI').
    now apply (IH _ prev').
Qed.

End Deferred.

(** What holds of the operations done and the calls deferred all along a
    body holds, with nothing deferred, when the function has returned. *)
Lemma withDeferred_inv {A} (env : Env) (I : list op -> list deferredCall -> Prop)
    (body : M A) (w : world) :
  wp (ops w) body (fun _ => I) [] [] ->
  (forall d rest prev ds,
      I prev (d :: rest) ->
      wp (ops w) (runDeferred env d) (fun _ prev' _ => I prev' rest) prev ds) ->
  I (new_ops w (withDeferred env body w).2) [].
Proof.
  intros Hbody Hdeferred. unfold withDeferred.
  destruct (Hbody (set_deferred [] w)) as (prev & Hops & HI).
  { cbn. now rewrite app_nil_r. }
  { reflexivity. }
  destruct (body (set_deferred [] w)) as [r w1]. cbn [fst snd] in *.
  destruct (runAllDeferred_inv env (ops w) I Hdeferred (deferred w1) w1 prev Hops HI)
    as (prev' & Hops' & HI').
  cbn [snd]. erewrite new_ops_app; [exact HI'|]. exact Hops'.
Qed.

(** ** The files of RestoreUsersOrRoles are closed *)

Section FilesClosed.

Context (env : Env) (h0 : list op).

Lemma wp_runDeferred_files (d : deferredCall) (rest : list deferredCall)
    (prev : list op) (ds : list deferredCall) :
  filesDeferred env h0 prev (d :: rest) ->
  wp h0 (runDeferred env d) (fun _ prev' _ => filesDeferred env h0 prev' rest) prev ds.
Proof.
  intros HI. destruct d as [location|location|tempCollectionName]; cbn [runDeferred].
  - wp_steps. eapply filesDeferred_snoc; [exact HI|].
    cbn. now rewrite String.eqb_refl.
  - wp_steps. eapply filesDeferred_snoc; [exact HI|].
    cbn. now rewrite String.eqb_refl.
  - unfold dropTemp, GetSession, DropCollectionOp. wp_steps.
    assert (HI' : filesDeferred env h0 (prev ++ [OpGetSession]) rest)
      by (eapply filesDeferred_snoc; [exact HI|reflexivity]).
    destruct (envGetSession env _); wp_steps; [exact HI'|].
    destruct (envDrop env _ _ _); wp_steps;
      (eapply filesDeferred_snoc; [exact HI'|reflexivity]).
Qed.

End FilesClosed.

(** X11: [RestoreUsersOrRoles] leaves no file open, however it returns:
    among its operations every BSON file opened with success has its
    source closed and is closed itself, the file opened last first, and
    nothing else is closed. *)
Theorem RestoreUsersOrRoles_closes_files (env : Env) (restore : MongoRestore)
    (users roles : option Intent) (w : world) :
  openFiles env (ops w)
            (new_ops w (RestoreUsersOrRoles env restore users roles w).2)
  = Some ([], []).
Proof.
  apply (withDeferred_inv env (filesDeferred env (ops w))).
  - apply (wp_body_inv env restore (ops w) (filesDeferred env (ops w))
             (fun _ _ => True)); try reflexivity; try easy.
    + intros prev ds HI. eapply filesDeferred_snoc; [exact HI|reflexivity].
    + intros prev ds mergeArgs userTargetDB tail HI _ _.
      eapply filesDeferred_snoc; [exact HI|reflexivity].
    + intros arg mergeArgs prev ds HI _.
      eapply wp_weaken; [now apply wp_restoreArg_files|].
      intros r prev' ds' HI'. now split.
  - apply wp_runDeferred_files.
Qed.

(** ** The temporary collections of RestoreUsersOrRoles are dropped *)

Lemma removeFirst_submseteq {K} `{EqDecision K} (k : K) (l : list K) :
  removeFirst k l ⊆+ l.
Proof.
  induction l as [|x l IH]; cbn; [reflexivity|].
  destruct (decide (x = k)); [now apply submseteq_cons|now apply submseteq_skip].
Qed.

Lemma removeFirst_Permutation {K} `{EqDecision K} (k : K) (l : list K) :
  k ∈ l -> l ≡ₚ k :: removeFirst k l.
Proof.
  induction l as [|x l IH]; [now intros ?%elem_of_nil|]. cbn.
  destruct (decide (x = k)) as [->|Hne]; [reflexivity|].
  intros [->|Hin]%elem_of_cons; [congruence|].
  rewrite (IH Hin) at 1. apply Permutation_swap.
Qed.

Lemma removeFirst_submseteq_cons {K} `{EqDecision K} (k : K) (l rest : list K) :
  l ⊆+ k :: rest -> removeFirst k l ⊆+ rest.
Proof.
  intros Hsub. destruct (decide (k ∈ l)) as [Hin|Hout].
  - rewrite (removeFirst_Permutation k l Hin) in Hsub.
    now apply (submseteq_app_inv_l _ _ [k]).
  - apply submseteq_cons_r in Hsub as [Hsub|(l' & Hl & _)].
    + now rewrite removeFirst_submseteq.
    + destruct Hout. rewrite Hl. now left.
Qed.

Section TempsDropped.

Context (env : Env) (h0 : list op).

Lemma tempsDeferred_step (prev : list op) (o : op) (ds ds' : list deferredCall) :
  tempsDeferred env h0 prev ds ->
  (forall temps, temps ⊆+ dropTemps ds ->
     exists temps', tempStep env (h0 ++ prev) o temps = Some temps'
                    /\ temps' ⊆+ dropTemps ds') ->
  tempsDeferred env h0 (prev ++ [o]) ds'.
Proof.
  intros (temps & Htrack & Hsub) Hstep.
  destruct (Hstep temps Hsub) as (temps' & Hstep' & Hsub').
  exists temps'. split; [|exact Hsub'].
  eapply track_snoc; [exact Htrack|exact Hstep'].
Qed.

Lemma tempsDeferred_extra (dbName : string) (prev extra : list op)
    (ds : list deferredCall) :
  tempsDeferred env h0 prev ds ->
  Forall (fun o => o = OpGetSession \/ o = OpListCollections dbName) extra ->
  tempsDeferred env h0 (prev ++ extra) ds.
Proof.
  intros (temps & Htrack & Hsub) Hextra. exists temps. split; [|exact Hsub].
  eapply track_neutral; [exact Htrack|].
  eapply Forall_impl; [exact Hextra|]. now intros o [->| ->].
Qed.

Lemma tempsDeferred_drop (prev : list op) (dbName coll : string)
    (ds : list deferredCall) :
  tempsDeferred env h0 prev ds ->
  tempsDeferred env h0 (prev ++ [OpDrop dbName coll]) ds.
Proof.
  intros HI. eapply tempsDeferred_step; [exact HI|]. intros temps Hsub.
  eexists. split; [reflexivity|]. now rewrite removeFirst_submseteq.
Qed.

Ltac temps_same :=
  eapply tempsDeferred_step;
  [eassumption|intros temps Hsub; exists temps; now split].

Lemma wp_restoreArg_temps (arg : loopArg) (mergeArgs : command)
    (prev : list op) (ds : list deferredCall) :
  tempsDeferred env h0 prev ds ->
  wp h0 (restoreArg env arg mergeArgs) (fun _ => tempsDeferred env h0) prev ds.
Proof.
  intros Hinv. unfold restoreArg, BSONFileOpen, RestoreCollectionToDB, DropCollectionOp.
  assert (Hopened : tempsDeferred env h0
            (prev ++ [OpBSONFileOpen (Location (intent arg))])
            (DeferBSONSourceClose (Location (intent arg))
             :: DeferBSONFileClose (Location (intent arg)) :: ds)).
  { eapply tempsDeferred_step; [exact Hinv|].
    intros temps Hsub. exists temps. now split. }
  wp_step. destruct (Size (intent arg) =? 0); wp_steps.
  all: destruct (envBSONFileOpen env (h0 ++ prev) (Location (intent arg))) eqn:Hopen;
    [temps_same|].
  all: wp_steps; apply wp_CollectionExists; intros r extra Hextra.
  all: pose proof (tempsDeferred_extra _ _ _ _ Hopened Hextra) as Hlisted.
  all: pose proof (tempsDeferred_drop _ "admin" (tempCollectionName arg) _ Hlisted)
         as Hdropped.
  all: destruct r as [e|[]]; [exact Hlisted| |]; wp_steps.
  all: try (destruct (envDrop env _ _ _); wp_steps; [exact Hdropped|]).
  all: match goal with
       | |- context [envRestoreCollectionToDB env ?h ?d ?c ?l] =>
           destruct (envRestoreCollectionToDB env h d c l) eqn:Hrestore
       end; wp_steps.
  all: eapply tempsDeferred_step; [eassumption|]; intros temps Hsub;
    eexists; (split; [cbn; rewrite Hrestore; reflexivity|]); cbn;
    try exact Hsub; now apply submseteq_skip.
Qed.

Hypothesis sessions : forall h, envGetSession env h = None.

Lemma wp_runDeferred_temps (d : deferredCall) (rest : list deferredCall)
    (prev : list op) (ds : list deferredCall) :
  tempsDeferred env h0 prev (d :: rest) ->
  wp h0 (runDeferred env d) (fun _ prev' _ => tempsDeferred env h0 prev' rest) prev ds.
Proof.
  intros HI. destruct d as [location|location|tempCollectionName]; cbn [runDeferred].
  - wp_steps. temps_same.
  - wp_steps. temps_same.
  - unfold dropTemp, GetSession, DropCollectionOp. wp_steps.
    rewrite sessions. wp_steps.
    assert (HI' : tempsDeferred env h0
                    ((prev ++ [OpGetSession])
                       ++ [OpDrop "admin" tempCollectionName]) rest).
    { eapply tempsDeferred_step.
      - eapply tempsDeferred_step; [exact HI|].
        intros temps Hsub. exists temps. split; [reflexivity|exact Hsub].
      - intros temps Hsub. eexists. split; [reflexivity|].
        now apply removeFirst_submseteq_cons. }
    destruct (envDrop env _ _ _); wp_steps; exact HI'.
Qed.

End TempsDropped.

(** X12: when the session can always be got, [RestoreUsersOrRoles] leaves
    no temporary collection without a drop, however it returns: for every
    collection that [RestoreCollectionToDB] has filled with success, a
    later operation is a drop of that collection (an error of the drop is
    only logged). *)
Theorem RestoreUsersOrRoles_drops_temps (env : Env) (restore : MongoRestore)
    (users roles : option Intent) (w : world) :
  (forall h, envGetSession env h = None) ->
  filledTemps env (ops w)
              (new_ops w (RestoreUsersOrRoles env restore users roles w).2)
  = Some [].
Proof.
  intros sessions.
  assert (HI : tempsDeferred env (ops w)
                 (new_ops w (RestoreUsersOrRoles env restore users roles w).2) []).
  { apply (withDeferred_inv env (tempsDeferred env (ops w))).
    - apply (wp_body_inv env restore (ops w) (tempsDeferred env (ops w))
               (fun _ _ => True)); try easy.
      + intros prev ds HI. eapply tempsDeferred_step; [exact HI|].
        intros temps Hsub. exists temps. now split.
      + intros prev ds mergeArgs userTargetDB tail HI _ _.
        eapply tempsDeferred_step; [exact HI|].
        intros temps Hsub. exists temps. now split.
      + intros arg mergeArgs prev ds HI _.
        eapply wp_weaken; [now apply wp_restoreArg_temps|].
        intros r prev' ds' HI'. now split.
      + exists []. now split.
    - now apply wp_runDeferred_temps. }
  destruct HI as (temps & Htrack & Hsub).
  apply submseteq_nil_r in Hsub. now subst temps.
Qed.

(** ** The merge command names collections that were filled *)

Section MergesFilled.

Context (env : Env) (restore : MongoRestore) (h0 : list op).

Lemma filled_extra (prev extra : list op) (v : string) :
  filled env h0 prev v -> filled env h0 (prev ++ extra) v.
Proof.
  intros (j & t & location & Hj & Hv & Hanswer).
  exists j, t, location. pose proof (lookup_lt_Some _ _ _ Hj) as Hlt.
  split; [now apply lookup_app_l_Some|]. split; [exact Hv|].
  rewrite take_app_le by lia. exact Hanswer.
Qed.

Lemma filled_restore (prev : list op) (t location : string) :
  envRestoreCollectionToDB env (h0 ++ prev) "admin" t location = None ->
  filled env h0 (prev ++ [OpRestoreCollectionToDB "admin" t location])
         ("admin." +:+ t).
Proof.
  intros Hanswer. exists (List.length prev), t, location.
  split; [now apply list_lookup_middle|]. split; [reflexivity|].
  now rewrite take_app_length.
Qed.

Lemma argsFilled_extra (prev extra : list op) (mergeArgs : command) :
  argsFilled env h0 prev mergeArgs -> argsFilled env h0 (prev ++ extra) mergeArgs.
Proof. intros H key v Hin. apply filled_extra. now apply (H key). Qed.

Lemma mergesFilled_snoc (prev : list op) (o : op) :
  mergesFilled env h0 prev ->
  (forall d cmd, o <> OpRunCommand d cmd) ->
  mergesFilled env h0 (prev ++ [o]).
Proof.
  intros H Ho i d cmd key v Hi Hin Hkey.
  apply lookup_app_Some in Hi as [Hi|[Hge Hi]].
  - pose proof (lookup_lt_Some _ _ _ Hi) as Hlt.
    rewrite take_app_le by lia. now apply (H i d cmd key).
  - apply list_lookup_singleton_Some in Hi as [_ Hi]. now destruct (Ho d cmd).
Qed.

Lemma mergesFilled_extra (dbName : string) (prev extra : list op) :
  mergesFilled env h0 prev ->
  Forall (fun o => o = OpGetSession \/ o = OpListCollections dbName) extra ->
  mergesFilled env h0 (prev ++ extra).
Proof.
  intros H Hextra. induction extra as [|o extra IH] using rev_ind;
    [now rewrite app_nil_r|].
  apply Forall_app in Hextra as [Hextra Ho]. apply List.Forall_inv in Ho.
  rewrite app_assoc. apply mergesFilled_snoc; [now apply IH|].
  cbv beta in Ho. destruct Ho as [Ho|Ho]; subst o; discriminate.
Qed.

Lemma mergesFilled_command (prev : list op) (mergeArgs : command)
    (userTargetDB : string) (tail : command) :
  mergesFilled env h0 prev ->
  argsFilled env h0 prev mergeArgs ->
  Forall (fun kv => kv.1 = "writeConcern") tail ->
  mergesFilled env h0
    (prev ++ [OpRunCommand "admin"
                (mergeCommand restore mergeArgs userTargetDB ++ tail)])%list.
Proof.
  intros H Hargs Htail i d cmd key v Hi Hin Hkey.
  apply lookup_app_Some in Hi as [Hi|[Hge Hi]].
  - pose proof (lookup_lt_Some _ _ _ Hi) as Hlt.
    rewrite take_app_le by lia. now apply (H i d cmd key).
  - apply list_lookup_singleton_Some in Hi as [Hi [= <- <-]].
    assert (i = List.length prev) as -> by lia.
    rewrite take_app_length. apply (Hargs key).
    apply elem_of_cons in Hin as [Heq|Hin]; [discriminate Heq|].
    apply elem_of_app in Hin as [Hin|Hin].
    + apply elem_of_app in Hin as [Hin|Hin]; [exact Hin|].
      rewrite !elem_of_cons, elem_of_nil in Hin.
      destruct Hin as [Heq|[Heq|[]]]; [discriminate Heq|].
      injection Heq as -> _. now destruct Hkey.
    + rewrite Forall_forall in Htail. apply Htail in Hin. cbn in Hin.
      now destruct Hkey; subst key.
Qed.

Ltac merges_snoc :=
  repeat (apply mergesFilled_snoc; [|discriminate]); try eassumption.

Lemma wp_restoreArg_merge (arg : loopArg) (mergeArgs : command)
    (prev : list op) (ds : list deferredCall) :
  mergesFilled env h0 prev ->
  argsFilled env h0 prev mergeArgs ->
  wp h0 (restoreArg env arg mergeArgs)
     (loopPost (fun prev _ => mergesFilled env h0 prev)
               (fun mergeArgs prev => argsFilled env h0 prev mergeArgs))
     prev ds.
Proof.
  intros HI HJ. unfold restoreArg, BSONFileOpen, RestoreCollectionToDB, DropCollectionOp.
  wp_step. destruct (Size (intent arg) =? 0); wp_steps.
  all: destruct (envBSONFileOpen env (h0 ++ prev) (Location (intent arg)));
    [split; [merges_snoc|discriminate]|].
  all: wp_steps; apply wp_CollectionExists; intros r extra Hextra.
  all: assert (Hlisted : mergesFilled env h0
                 ((prev ++ [OpBSONFileOpen (Location (intent arg))]) ++ extra))
    by (eapply mergesFilled_extra; [merges_snoc|exact Hextra]).
  all: destruct r as [e|[]]; [split; [exact Hlisted|discriminate]| |]; wp_steps.
  all: try (destruct (envDrop env _ _ _); wp_steps;
            [split; [merges_snoc|discriminate]|]).
  all: match goal with
       | |- context [envRestoreCollectionToDB env ?h ?d ?c ?l] =>
           destruct (envRestoreCollectionToDB env h d c l) eqn:Hrestore
       end; wp_steps.
  all: (split; [merges_snoc|]); try discriminate.
  all: intros ? ? [= <- <-]; intros key v [Hin|Hin%list_elem_of_singleton]%elem_of_app.
  all: try (injection Hin as -> ->; now apply filled_restore).
  all: repeat apply filled_extra; now apply (HJ key).
Qed.

Lemma wp_runDeferred_merge (d : deferredCall) (rest : list deferredCall)
    (prev : list op) (ds : list deferredCall) :
  mergesFilled env h0 prev ->
  wp h0 (runDeferred env d) (fun _ prev' _ => mergesFilled env h0 prev') prev ds.
Proof.
  intros HI. destruct d as [location|location|tempCollectionName]; cbn [runDeferred].
  - wp_steps. merges_snoc.
  - wp_steps. merges_snoc.
  - unfold dropTemp, GetSession, DropCollectionOp. wp_steps.
    destruct (envGetSession env _); wp_steps; [merges_snoc|].
    destruct (envDrop env _ _ _); wp_steps; merges_snoc.
Qed.

End MergesFilled.

(** X13: whatever [RestoreUsersOrRoles] asks the server to merge from was
    filled: every collection that a command among its operations names as
    [tempUsersCollection] or [tempRolesCollection] is [admin.] followed by
    a collection that an earlier [RestoreCollectionToDB] on [admin] has
    filled with success. *)
Theorem RestoreUsersOrRoles_merges_filled (env : Env) (restore : MongoRestore)
    (users roles : option Intent) (w : world) :
  mergesFilled env (ops w)
               (new_ops w (RestoreUsersOrRoles env restore users roles w).2).
Proof.
  apply (withDeferred_inv env (fun prev _ => mergesFilled env (ops w) prev)).
  - apply (wp_body_inv env restore (ops w)
             (fun prev _ => mergesFilled env (ops w) prev)
             (fun mergeArgs prev => argsFilled env (ops w) prev mergeArgs)).
    + intros prev ds HI. now apply mergesFilled_snoc.
    + intros mergeArgs prev HJ. now apply argsFilled_extra.
    + intros prev ds mergeArgs userTargetDB tail. apply mergesFilled_command.
    + intros arg mergeArgs prev ds. apply wp_restoreArg_merge.
    + intros i d cmd key v Hi. now rewrite lookup_nil in Hi.
    + intros key v Hin. now apply elem_of_nil in Hin.
  - intros d rest prev ds. now apply wp_runDeferred_merge.
Qed.

(** ** The auth version of a dump *)

Section DumpAuthVersion.

Import dumpauth.

Context (env : Env) (restore : MongoRestore) (state : DumpState)
        (versionString : db.Version -> string)
        (sourceOf : string -> BSONSource).

Lemma scanVersionDocs_skip (before rest : list (gmap string value)) (w : world) :
  Forall (fun versionDoc => isAuthSchema versionDoc = false) before ->
  exists w',
    scanVersionDocs (before ++ rest) w = scanVersionDocs rest w'
    /\ ops w' = ops w /\ deferred w' = deferred w.
Proof.
  intros Hbefore. revert w.
  induction Hbefore as [|versionDoc before Hdoc _ IH]; intros w.
  - now exists w.
  - cbn [app scanVersionDocs]. rewrite Hdoc. run_M.
    match goal with |- context [scanVersionDocs _ ?w1] =>
      destruct (IH w1) as (w' & Hrun & Hops & Hds) end.
    exists w'. now rewrite Hrun.
Qed.

Lemma wp_scanVersionDocs (h0 : list op) (docs : list (gmap string value))
    Post prev ds :
  (forall r, Post r prev ds) -> wp h0 (scanVersionDocs docs) Post prev ds.
Proof.
  intros H. induction docs as [|versionDoc docs IH]; cbn [scanVersionDocs].
  - now apply wp_ret.
  - destruct (isAuthSchema versionDoc).
    + destruct (default VNil (versionDoc !! "currentVersion")); now wp_steps.
    + wp_steps. exact IH.
Qed.

(** X14: for a dump of a server at or above 8.1.0, and for a dump without
    a [system.version] file, [GetDumpAuthVersion] answers without opening
    any file: 5 for the former, even when the file is there; for the
    latter 3 under [--restoreDbUsersAndRoles] and 1 otherwise. *)
Theorem GetDumpAuthVersion_without_file (w : world) :
  db.GTE (dumpServerVersion state) (8, 1, 0) = true \/ AuthVersion state = None ->
  let r := GetDumpAuthVersion env restore state versionString sourceOf w in
  r.1 = inr (if db.GTE (dumpServerVersion state) (8, 1, 0) then 5
             else if RestoreDBUsersAndRoles (InputOptions state) then 3 else 1)
  /\ ops r.2 = ops w.
Proof.
  intros H. cbv zeta. unfold GetDumpAuthVersion, withDeferred, GetDumpAuthVersion_body.
  destruct (db.GTE (dumpServerVersion state) (8, 1, 0)); [now run_M|].
  destruct H as [H|H]; [discriminate|]. rewrite H.
  destruct (RestoreDBUsersAndRoles (InputOptions state)); now run_M.
Qed.

Section WithFile.

Context (intent : Intent) (w : world).

Hypothesis below81 : db.GTE (dumpServerVersion state) (8, 1, 0) = false.
Hypothesis withFile : AuthVersion state = Some intent.
Hypothesis opened : envBSONFileOpen env (ops w) (Location intent) = None.

Lemma GetDumpAuthVersion_scan (before rest : list (gmap string value)) :
  documents (sourceOf (Location intent)) = (before ++ rest)%list ->
  Forall (fun versionDoc => isAuthSchema versionDoc = false) before ->
  exists w1,
    ops w1 = (ops w ++ [OpBSONFileOpen (Location intent)])%list
    /\ deferred w1 = [DeferBSONSourceClose (Location intent);
                      DeferBSONFileClose (Location intent)]
    /\ GetDumpAuthVersion_body env restore state versionString sourceOf
         (set_deferred [] w)
       = (found ← scanVersionDocs rest;
          match found with
          | Some authVersion => mret authVersion
          | None =>
              match sourceErr (sourceOf (Location intent)) with
              | Some err =>
                  Logv Info ("can't unmarshal system.version document: "
                               +:+ Error err)
              | None => mret tt
              end;;
              fail (errors_New "system.version bson file does not have authSchema document")
          end) w1.
Proof.
  intros Hdocs Hbefore. unfold GetDumpAuthVersion_body.
  rewrite below81, withFile. unfold BSONFileOpen. run_M. rewrite opened. run_M.
  rewrite Hdocs.
  match goal with |- context [scanVersionDocs _ ?w0] =>
    destruct (scanVersionDocs_skip before rest w0 Hbefore) as (w1 & Hrun & Hops & Hds)
  end.
  exists w1. rewrite Hrun. cbn in Hops, Hds. now repeat split.
Qed.

(** X15: the first document of the [system.version] file whose [_id] is
    the string ["authSchema"] decides: [GetDumpAuthVersion] returns its
    [currentVersion] when that is an int, an int32 or an int64, and an
    error otherwise, whatever the documents after it hold; and the file
    and its source are closed. *)
Theorem GetDumpAuthVersion_first_authSchema
    (before after : list (gmap string value)) (versionDoc : gmap string value) :
  documents (sourceOf (Location intent)) = (before ++ versionDoc :: after)%list ->
  Forall (fun versionDoc => isAuthSchema versionDoc = false) before ->
  isAuthSchema versionDoc = true ->
  let r := GetDumpAuthVersion env restore state versionString sourceOf w in
  r.1 = match default VNil (versionDoc !! "currentVersion") with
        | VInt authVersion | VInt32 authVersion | VInt64 authVersion =>
            inr authVersion
        | currentVersion =>
            inl (errors_New ("can't unmarshal system.version curentVersion as an int: "
                               +:+ Sprint currentVersion))
        end
  /\ new_ops w r.2 = [OpBSONFileOpen (Location intent);
                      OpBSONSourceClose (Location intent);
                      OpBSONFileClose (Location intent)].
Proof.
  intros Hdocs Hbefore Hdoc. cbv zeta.
  destruct (GetDumpAuthVersion_scan before (versionDoc :: after) Hdocs Hbefore)
    as (w1 & Hops & Hds & Hrun).
  unfold GetDumpAuthVersion, withDeferred. rewrite Hrun.
  cbn [scanVersionDocs]. rewrite Hdoc. run_M.
  destruct (default VNil (versionDoc !! "currentVersion")); run_M; rewrite Hds;
    (split; [reflexivity|]); apply new_ops_app; cbn; rewrite Hops;
    now rewrite <- !app_assoc.
Qed.

(** X16: when no document of the [system.version] file has the [_id]
    ["authSchema"], [GetDumpAuthVersion] returns the error that the file
    has no authSchema document, also when reading the file stopped at an
    error (which is only logged); and the file and its source are closed. *)
Theorem GetDumpAuthVersion_no_authSchema :
  Forall (fun versionDoc => isAuthSchema versionDoc = false)
         (documents (sourceOf (Location intent))) ->
  let r := GetDumpAuthVersion env restore state versionString sourceOf w in
  r.1 = inl (errors_New "system.version bson file does not have authSchema document")
  /\ new_ops w r.2 = [OpBSONFileOpen (Location intent);
                      OpBSONSourceClose (Location intent);
                      OpBSONFileClose (Location intent)].
Proof.
  intros Hdocs. cbv zeta.
  destruct (GetDumpAuthVersion_scan (documents (sourceOf (Location intent))) [])
    as (w1 & Hops & Hds & Hrun); [now rewrite app_nil_r|exact Hdocs|].
  unfold GetDumpAuthVersion, withDeferred. rewrite Hrun.
  cbn [scanVersionDocs]. run_M.
  destruct (sourceErr (sourceOf (Location intent))); run_M; rewrite Hds;
    (split; [reflexivity|]); apply new_ops_app; cbn; rewrite Hops;
    now rewrite <- !app_assoc.
Qed.

End WithFile.

(** X17: [GetDumpAuthVersion] leaves no file open, however it returns. *)
Theorem GetDumpAuthVersion_closes_files (w : world) :
  openFiles env (ops w)
    (new_ops w (GetDumpAuthVersion env restore state versionString sourceOf w).2)
  = Some ([], []).
Proof.
  apply (withDeferred_inv env (filesDeferred env (ops w))).
  - unfold GetDumpAuthVersion_body, BSONFileOpen.
    destruct (db.GTE _ _); [now wp_steps|].
    destruct (AuthVersion state) as [intent|].
    + wp_steps. destruct (envBSONFileOpen env _ (Location intent)) eqn:Hopen.
      * apply (filesDeferred_snoc env (ops w) [] _ [] []); [reflexivity|]. cbn.
        rewrite app_nil_r in Hopen. now rewrite app_nil_r, Hopen.
      * wp_steps. apply wp_scanVersionDocs.
        assert (HI : filesDeferred env (ops w) ([] ++ [OpBSONFileOpen (Location intent)])
                       [DeferBSONSourceClose (Location intent);
                        DeferBSONFileClose (Location intent)]).
        { apply (filesDeferred_snoc env (ops w) [] _ []); [reflexivity|]. cbn.
          rewrite app_nil_r in Hopen. now rewrite app_nil_r, Hopen. }
        intros [e|[authVersion|]]; wp_steps; [exact HI..|].
        destruct (sourceErr _); wp_steps; exact HI.
    + destruct (RestoreDBUsersAndRoles _); now wp_steps.
  - apply wp_runDeferred_files.
Qed.

End DumpAuthVersion.

(** ** The properties at sample inputs *)

Lemma CollectionExists_lists_witness :
  let r := CollectionExists Samples.quietEnv "admin" "system.version"
                            Samples.emptyWorld in
  r.1 = inr (bool_decide ("system.version" ∈ ["system.version"]))
  /\ new_ops Samples.emptyWorld r.2 = [OpGetSession; OpListCollections "admin"]
  /\ default [] (knownCollections r.2 !! "admin") = ["system.version"]
  /\ (forall d, d <> "admin" ->
        knownCollections r.2 !! d = knownCollections Samples.emptyWorld !! d).
Proof.
  apply (CollectionExists_lists Samples.quietEnv "admin" "system.version"
           ["system.version"] Samples.emptyWorld); reflexivity.
Defined.

Lemma CollectionExists_twice_witness :
  let w1 := (CollectionExists Samples.quietEnv "admin" "tempusers"
                              Samples.emptyWorld).2 in
  CollectionExists Samples.quietEnv "admin" "system.version" w1
  = (inr (bool_decide ("system.version" ∈ ["system.version"])), w1).
Proof.
  apply (CollectionExists_twice Samples.quietEnv "admin" "tempusers" "system.version"
           ["system.version"] Samples.emptyWorld); [reflexivity..|discriminate].
Defined.

Lemma CollectionExists_empty_again_witness :
  let r := CollectionExists Samples.legacyEnv "admin" "tempusers"
                            Samples.emptyWorld in
  r.1 = inr false
  /\ (envGetSession Samples.legacyEnv (ops r.2) = None ->
      new_ops r.2 (CollectionExists Samples.legacyEnv "admin" "temproles" r.2).2
      = [OpGetSession; OpListCollections "admin"]).
Proof.
  apply (CollectionExists_empty_again Samples.legacyEnv "admin" "tempusers" "temproles"
           Samples.emptyWorld); reflexivity.
Defined.

Lemma CollectionExists_bad_name_witness :
  let r := CollectionExists Samples2.oddNamesEnv "admin" "temproles"
                            Samples.emptyWorld in
  r.1 = inl (errors_New ("invalid collection name: " +:+ "7"))
  /\ default [] (knownCollections r.2 !! "admin") = ["tempusers"]
  /\ (["tempusers"] <> [] ->
      CollectionExists Samples2.oddNamesEnv "admin" "temproles" r.2
      = (inr (bool_decide ("temproles" ∈ ["tempusers"])), r.2)).
Proof.
  apply (CollectionExists_bad_name Samples2.oddNamesEnv "admin" "temproles" "temproles"
           "7" ["tempusers"] [RawString "temproles"] Samples.emptyWorld); reflexivity.
Defined.

Lemma CreateIndexes_first_bad_index_witness :
  let restore := Samples.restoreAt (4, 4, 0) "shop" false in
  CreateIndexes Samples.quietEnv restore "shop" "orders"
    [Samples.index_a; Samples2.index_unnamed; Samples.index_long] Samples.emptyWorld
  = (inl (errors_New "expected name (<nil>: <nil>) to be a string"), Samples.emptyWorld)
  /\ CreateIndexes Samples.quietEnv restore "shop" "orders"
       [Samples.index_a; Samples2.index_nil; Samples.index_long] Samples.emptyWorld
     = (inl (errors_New "assignment to entry in nil map"),
        add_op (OpPanic "assignment to entry in nil map") Samples.emptyWorld).
Proof.
  split.
  - apply (CreateIndexes_first_bad_index Samples.quietEnv
             (Samples.restoreAt (4, 4, 0) "shop" false) "shop" "orders"
             [Samples.index_a] [Samples.index_long] Samples2.index_unnamed
             Samples.emptyWorld).
    + constructor; [|constructor]. split; [discriminate|]. now exists "a_1".
    + intros [_ [nameStr Hname]]. discriminate Hname.
  - apply (CreateIndexes_first_bad_index Samples.quietEnv
             (Samples.restoreAt (4, 4, 0) "shop" false) "shop" "orders"
             [Samples.index_a] [Samples.index_long] Samples2.index_nil
             Samples.emptyWorld).
    + constructor; [|constructor]. split; [discriminate|]. now exists "a_1".
    + intros [_ [nameStr Hname]]. discriminate Hname.
Defined.

Lemma CreateCollection_invalid_uuid_witness :
  let r := CreateCollection Samples.quietEnv (Samples.restoreAt (4, 4, 0) "shop" false)
             Samples2.accounts [("autoIndexId", VBool false)] "0g"
             Samples.emptyWorld in
  r.1 = inl (Errorf "Couldn't restore UUID because UUID was invalid: "
                    (hex.InvalidByteError "g"))
  /\ new_ops Samples.emptyWorld r.2 = [OpGetSession].
Proof.
  apply (CreateCollection_invalid_uuid Samples.quietEnv
           (Samples.restoreAt (4, 4, 0) "shop" false) Samples2.accounts
           [("autoIndexId", VBool false)] "0g" (hex.InvalidByteError "g")
           Samples.emptyWorld); reflexivity.
Defined.

Lemma RestoreUsersOrRoles_drops_temps_witness :
  filledTemps Samples.quietEnv (ops Samples.emptyWorld)
    (new_ops Samples.emptyWorld
       (RestoreUsersOrRoles Samples.quietEnv (Samples.restoreAt (4, 4, 0) "" false)
          (Some Samples.emptyUsers) None Samples.emptyWorld).2)
  = Some [].
Proof.
  apply (RestoreUsersOrRoles_drops_temps Samples.quietEnv
           (Samples.restoreAt (4, 4, 0) "" false) (Some Samples.emptyUsers) None
           Samples.emptyWorld).
  reflexivity.
Defined.

Lemma GetDumpAuthVersion_without_file_witness :
  let r := dumpauth.GetDumpAuthVersion Samples.quietEnv
             (Samples.restoreAt (4, 4, 0) "" false)
             {| dumpauth.dumpServerVersion := (8, 2, 0);
                dumpauth.AuthVersion := Some Samples2.systemVersion;
                dumpauth.InputOptions :=
                  {| dumpauth.RestoreDBUsersAndRoles := false |} |}
             Samples2.versionString Samples2.versionFile Samples.emptyWorld in
  r.1 = inr 5 /\ ops r.2 = ops Samples.emptyWorld.
Proof.
  apply (GetDumpAuthVersion_without_file Samples.quietEnv
           (Samples.restoreAt (4, 4, 0) "" false)
           {| dumpauth.dumpServerVersion := (8, 2, 0);
              dumpauth.AuthVersion := Some Samples2.systemVersion;
              dumpauth.InputOptions :=
                {| dumpauth.RestoreDBUsersAndRoles := false |} |}
           Samples2.versionString Samples2.versionFile Samples.emptyWorld).
  now left.
Defined.

Lemma GetDumpAuthVersion_first_authSchema_witness :
  let r := dumpauth.GetDumpAuthVersion Samples.quietEnv
             (Samples.restoreAt (4, 4, 0) "" false) Samples2.dumpOf70
             Samples2.versionString Samples2.versionFile Samples.emptyWorld in
  r.1 = inr 5
  /\ new_ops Samples.emptyWorld r.2
     = [OpBSONFileOpen "dump/admin/system.version.bson";
        OpBSONSourceClose "dump/admin/system.version.bson";
        OpBSONFileClose "dump/admin/system.version.bson"].
Proof.
  apply (GetDumpAuthVersion_first_authSchema Samples.quietEnv
           (Samples.restoreAt (4, 4, 0) "" false) Samples2.dumpOf70
           Samples2.versionString Samples2.versionFile Samples2.systemVersion
           Samples.emptyWorld eq_refl eq_refl eq_refl
           [Samples2.featureDoc] [] Samples2.authSchemaDoc);
    [reflexivity|now repeat constructor|reflexivity].
Defined.

Lemma GetDumpAuthVersion_no_authSchema_witness :
  let r := dumpauth.GetDumpAuthVersion Samples.quietEnv
             (Samples.restoreAt (4, 4, 0) "" false) Samples2.dumpOf70
             Samples2.versionString Samples2.brokenFile Samples.emptyWorld in
  r.1 = inl (errors_New "system.version bson file does not have authSchema document")
  /\ new_ops Samples.emptyWorld r.2
     = [OpBSONFileOpen "dump/admin/system.version.bson";
        OpBSONSourceClose "dump/admin/system.version.bson";
        OpBSONFileClose "dump/admin/system.version.bson"].
Proof.
  apply (GetDumpAuthVersion_no_authSchema Samples.quietEnv
           (Samples.restoreAt (4, 4, 0) "" false) Samples2.dumpOf70
           Samples2.versionString Samples2.brokenFile Samples2.systemVersion
           Samples.emptyWorld eq_refl eq_refl eq_refl).
  now repeat constructor.
Defined.
